(** * rocBLAS: the rocBLAS <-> Tensile interface layer and hbmv_batched

    A shallow embedding of
      - [library/src/tensile_host.cpp]: construction of the Tensile
        contraction problem, marshalling of alpha and beta, loading of the
        Tensile host and [runContractionProblem];
      - [library/src/blas2/rocblas_hbmv_batched.cpp]: the argument checks
        of [rocblas_hbmv_batched_impl].

    Scalars are byte strings (what [memcpy] and [memset] see), sizes are
    [N] ([size_t]), [rocblas_int] values are [Z].  Calls into Tensile, HIP
    and libc are fields of oracle records: they may return or throw. *)

From Stdlib Require Import ZArith NArith List String Ascii Bool Lia.
From Stdlib Require Import Strings.Byte DecimalString.
From Stdlib Require Import SpecFloat.
From Stdlib Require Import Sorting.Sorted.
Import ListNotations.

Local Open Scope N_scope.

(** ** Element types *)

(** The eight element types for which the file has a [tensile_datatype]. *)
Inductive rocblas_type : Set :=
| rocblas_half
| rocblas_bfloat16
| rocblas_float
| rocblas_double
| rocblas_float_complex
| rocblas_double_complex
| rocblas_int8
| rocblas_int32.

Definition rocblas_type_eqb (x y : rocblas_type) : bool :=
  match x, y with
  | rocblas_half, rocblas_half
  | rocblas_bfloat16, rocblas_bfloat16
  | rocblas_float, rocblas_float
  | rocblas_double, rocblas_double
  | rocblas_float_complex, rocblas_float_complex
  | rocblas_double_complex, rocblas_double_complex
  | rocblas_int8, rocblas_int8
  | rocblas_int32, rocblas_int32 => true
  | _, _ => false
  end.

Module Tensile.

(** [Tensile::DataType]; a tag also stands for the Tensile C++ type that
    carries it ([float], [std::complex<float>], [Tensile::Half], ...). *)
Inductive DataType : Set :=
| Float | Double | ComplexFloat | ComplexDouble
| Half | Int8x4 | Int32 | BFloat16.

(** [Tensile::TensorOp::Type]. *)
Inductive TensorOp : Set := OpNone | ComplexConjugate.

Definition TensorOp_eqb (x y : TensorOp) : bool :=
  match x, y with
  | OpNone, OpNone | ComplexConjugate, ComplexConjugate => true
  | _, _ => false
  end.

Definition TensorOps := list TensorOp.

(** [Tensile::TensorDescriptor{type, {sizes}, {strides}}]. *)
Record TensorDescriptor : Set := {
  td_type    : DataType;
  td_sizes   : list N;
  td_strides : list N
}.

Record FreeIndex : Set := { isA : bool; fi_i : N; fi_c : N; fi_d : N }.
Record BoundIndex : Set := { bi_a : N; bi_b : N }.
Record BatchIndex : Set := { ba_a : N; ba_b : N; ba_c : N; ba_d : N }.

(** [Tensile::ContractionProblem], as its constructor receives it, with
    the flag [setHighPrecisionAccumulate] writes. *)
Record ContractionProblem (beta_category : Type) : Type := {
  cp_a : TensorDescriptor;  cp_aops : TensorOps;
  cp_b : TensorDescriptor;  cp_bops : TensorOps;
  cp_c : TensorDescriptor;  cp_cops : TensorOps;
  cp_d : TensorDescriptor;  cp_dops : TensorOps;
  cp_freeIndices  : list FreeIndex;
  cp_batchIndices : list BatchIndex;
  cp_boundIndices : list BoundIndex;
  cp_beta : beta_category;
  highPrecisionAccumulate : bool
}.

Arguments cp_a {_} _.
Arguments cp_aops {_} _.
Arguments cp_b {_} _.
Arguments cp_bops {_} _.
Arguments cp_c {_} _.
Arguments cp_cops {_} _.
Arguments cp_d {_} _.
Arguments cp_dops {_} _.
Arguments cp_freeIndices {_} _.
Arguments cp_batchIndices {_} _.
Arguments cp_boundIndices {_} _.
Arguments cp_beta {_} _.
Arguments highPrecisionAccumulate {_} _.

Definition setHighPrecisionAccumulate {B} (p : ContractionProblem B) (v : bool)
  : ContractionProblem B :=
  {| cp_a := cp_a p; cp_aops := cp_aops p;
     cp_b := cp_b p; cp_bops := cp_bops p;
     cp_c := cp_c p; cp_cops := cp_cops p;
     cp_d := cp_d p; cp_dops := cp_dops p;
     cp_freeIndices := cp_freeIndices p;
     cp_batchIndices := cp_batchIndices p;
     cp_boundIndices := cp_boundIndices p;
     cp_beta := cp_beta p;
     highPrecisionAccumulate := v |}.

(** [Tensile::TypedContractionInputs]: four device addresses, alpha and
    beta held by value. *)
Record TypedContractionInputs : Set := {
  in_a : N; in_b : N; in_c : N; in_d : N;
  in_alpha : list byte;
  in_beta  : list byte
}.

End Tensile.
Import Tensile.

(** ** Type maps of tensile_host.cpp *)

(** [rocblas_to_tensile_type<T>::tensile_type]: the identity unless
    specialised. *)
Definition rocblas_to_tensile_type (T : rocblas_type) : DataType :=
  match T with
  | rocblas_float_complex  => ComplexFloat
  | rocblas_double_complex => ComplexDouble
  | rocblas_half           => Half
  | rocblas_bfloat16       => BFloat16
  | rocblas_int8           => Int8x4
  | rocblas_float          => Float
  | rocblas_double         => Double
  | rocblas_int32          => Int32
  end.

(** The variable template [tensile_datatype<T>]. *)
Definition tensile_datatype (T : rocblas_type) : DataType :=
  match T with
  | rocblas_int8           => Int8x4
  | rocblas_int32          => Int32
  | rocblas_half           => Half
  | rocblas_bfloat16       => BFloat16
  | rocblas_float          => Float
  | rocblas_double         => Double
  | rocblas_float_complex  => ComplexFloat
  | rocblas_double_complex => ComplexDouble
  end.

(** Modelled from the spec: [sizeof] of the rocBLAS element types, whose
    declarations (rocblas-types.h) are not among the files embedded here; the
    storage widths are those of the spec's "storage width" of each logical
    type: 16-bit half and bfloat16, IEEE single and double, their complex
    pairs, one-byte and four-byte integers. *)
Definition sizeof (T : rocblas_type) : N :=
  match T with
  | rocblas_half | rocblas_bfloat16 => 2
  | rocblas_float | rocblas_int32 => 4
  | rocblas_double | rocblas_float_complex => 8
  | rocblas_double_complex => 16
  | rocblas_int8 => 1
  end.

(** [sizeof] of the Tensile types ([Tensile::Int8x4] packs four bytes). *)
Definition tensile_sizeof (D : DataType) : N :=
  match D with
  | Half | BFloat16 => 2
  | Float | Int32 | Int8x4 => 4
  | Double | ComplexFloat => 8
  | ComplexDouble => 16
  end.

(** Modelled from the spec: the trait [is_complex<T>], declared in another
    header of rocBLAS; "its element type is complex" holds of the two
    complex types. *)
Definition is_complex (T : rocblas_type) : bool :=
  match T with
  | rocblas_float_complex | rocblas_double_complex => true
  | _ => false
  end.

(** [rocblas_operation]. *)
Inductive rocblas_operation : Set :=
| rocblas_operation_none
| rocblas_operation_transpose
| rocblas_operation_conjugate_transpose.

Definition rocblas_operation_eqb (x y : rocblas_operation) : bool :=
  match x, y with
  | rocblas_operation_none, rocblas_operation_none
  | rocblas_operation_transpose, rocblas_operation_transpose
  | rocblas_operation_conjugate_transpose,
    rocblas_operation_conjugate_transpose => true
  | _, _ => false
  end.

(** The template arguments [<Ti, To, Tc>] of a contraction problem. *)
Record instantiation : Set := { Ti : rocblas_type; To : rocblas_type; Tc : rocblas_type }.

Definition instantiation_eqb (x y : instantiation) : bool :=
  rocblas_type_eqb (Ti x) (Ti y) && rocblas_type_eqb (To x) (To y)
  && rocblas_type_eqb (Tc x) (Tc y).

(** [RocblasContractionProblem<T>] has [To = Tc = Ti = T]. *)
Definition non_ex (T : rocblas_type) : instantiation :=
  {| Ti := T; To := T; Tc := T |}.

(** The explicit instantiations of [runContractionProblem] at the end of
    the file. *)
Definition instantiated : list instantiation :=
  [ non_ex rocblas_half; non_ex rocblas_float; non_ex rocblas_double;
    non_ex rocblas_float_complex; non_ex rocblas_double_complex;
    {| Ti := rocblas_half; To := rocblas_half; Tc := rocblas_float |};
    {| Ti := rocblas_bfloat16; To := rocblas_bfloat16; Tc := rocblas_float |};
    {| Ti := rocblas_int8; To := rocblas_int32; Tc := rocblas_int32 |} ].

(** The handle fields [runContractionProblem] reads. *)
Record rocblas_handle_data : Set := {
  startEvent : option N;
  stopEvent  : option N;
  rocblas_stream : N
}.

(** [RocblasContractionProblem<Ti, To, Tc>] (declared in tensile_host.hpp),
    with the members this file reads; [alpha] and [beta] are the bytes of
    the host scalars the pointers refer to. *)
Record RocblasContractionProblem : Set := {
  handle  : rocblas_handle_data;
  trans_a : rocblas_operation;
  trans_b : rocblas_operation;
  prob_m : N;  prob_n : N;  prob_k : N;
  alpha : list byte;
  prob_A : N;  ld_a : N;  stride_a : N;
  prob_B : N;  ld_b : N;  stride_b : N;
  beta : list byte;
  prob_C : N;  ld_c : N;  stride_c : N;
  prob_D : N;  ld_d : N;  stride_d : N;
  batch_count : N
}.

(** ** Scalars as bytes *)

(** [memcpy(dst, src, n)] and [memset(dst, c, n)], as the bytes left in
    [dst]. *)
Definition memcpy (n : N) (src : list byte) : list byte :=
  firstn (N.to_nat n) src.

Definition memset (c : byte) (n : N) : list byte :=
  repeat c (N.to_nat n).

(** Little-endian value of a byte string, and the converse on [n] bytes. *)
Fixpoint le_decode (bs : list byte) : N :=
  match bs with
  | [] => 0
  | b :: r => Byte.to_N b + 256 * le_decode r
  end.

Definition byte_of_N (v : N) : byte :=
  match Byte.of_N (v mod 256) with
  | Some b => b
  | None => x00
  end.

Fixpoint le_encode (n : nat) (v : N) : list byte :=
  match n with
  | O => []
  | S n' => byte_of_N v :: le_encode n' (v / 256)
  end.

(** Modelled from the spec: the conversion of a [float] to
    [rocblas_half] in the HPA specialisation of [AlphaBeta].
    The declaration of [rocblas_half] is not among the files embedded here;
    the spec calls the step a narrowing "to the kernel-native storage
    representation", which for a 16-bit half is the IEEE 754 conversion from
    binary32 to binary16, rounding to nearest even ([binary_round] of the
    Standard Library, precision 11, emax 16).  A NaN keeps its sign and the
    upper payload bits and is made quiet.  The argument and the result are
    bit patterns. *)
Definition half_of_float_bits (w : N) : N :=
  let s := N.shiftr w 31 mod 2 in
  let e := N.shiftr w 23 mod 256 in
  let f := w mod 8388608 in
  let sign := N.shiftl s 15 in
  if e =? 255 then
    if f =? 0 then sign + 31744
    else sign + N.lor 32256 (N.shiftr f 13)
  else
    let '(mx, ex) :=
      if e =? 0 then (f, (-149)%Z) else (f + 8388608, (Z.of_N e - 150)%Z) in
    match mx with
    | N0 => sign
    | Npos p =>
        match binary_round 11 16 (N.odd s) p ex with
        | S754_zero _ => sign
        | S754_infinity _ => sign + 31744
        | S754_nan => sign + 32256
        | S754_finite _ m x =>
            if (Npos m <? 1024) then sign + Npos m
            else sign + N.shiftl (Z.to_N (x + 25)) 10 + (Npos m - 1024)
        end
    end.

(** The construction of [rocblas_half src] from the host [float], on its
    bytes (little-endian host). *)
Definition float_to_half (src : list byte) : list byte :=
  le_encode 2 (half_of_float_bits (le_decode (firstn 4 src))).

(** ** AlphaBeta: converting alpha and beta between rocBLAS and Tensile *)

(** The one explicit specialisation,
    [AlphaBeta<rocblas_half, rocblas_half, float>]. *)
Definition is_hpa_half (t : instantiation) : bool :=
  rocblas_type_eqb (Ti t) rocblas_half
  && rocblas_type_eqb (To t) rocblas_half
  && rocblas_type_eqb (Tc t) rocblas_float.

(** [AlphaBeta<Ti, To, Tc>::tensile_type]. *)
Definition AlphaBeta_tensile_type (t : instantiation) : DataType :=
  if is_hpa_half t then Half else rocblas_to_tensile_type (Tc t).

(** The first [static_assert] of the primary template's [copy]. *)
Definition AlphaBeta_static_assert (t : instantiation) : bool :=
  sizeof (Tc t) =? tensile_sizeof (rocblas_to_tensile_type (Tc t)).

(** [copy] of the primary template: [memcpy(dst, src, sizeof( *dst ))]. *)
Definition AlphaBeta_primary_copy (t : instantiation) (src : list byte)
  : list byte :=
  memcpy (tensile_sizeof (rocblas_to_tensile_type (Tc t))) src.

(** [AlphaBeta<Ti, To, Tc>::copy(dst, src)], as the bytes left in [dst].
    The specialisation builds a [rocblas_half] from the float and hands it
    to [AlphaBeta<rocblas_half>::copy]. *)
Definition AlphaBeta_copy (t : instantiation) (src : list byte) : list byte :=
  if is_hpa_half t then
    let src' := float_to_half src in
    AlphaBeta_primary_copy (non_ex rocblas_half) src'
  else AlphaBeta_primary_copy t src.

(** ** GetTensileInputs *)

Definition GetTensileInputs (t : instantiation)
           (problem : RocblasContractionProblem) : TypedContractionInputs :=
  let Tensile_Talpha_beta := AlphaBeta_tensile_type t in
  {| in_a := prob_A problem;
     in_b := prob_B problem;
     in_c := prob_C problem;
     in_d := prob_D problem;
     in_alpha :=
       if prob_k problem =? 0
       then memset x00 (tensile_sizeof Tensile_Talpha_beta)
       else AlphaBeta_copy t (alpha problem);
     in_beta := AlphaBeta_copy t (beta problem) |}.

(** ** ConstructTensileProblem *)

(** The constructor of [Tensile::ContractionProblem] leaves the
    high-precision-accumulate flag false; [setHighPrecisionAccumulate]
    writes it. *)

Section Construct.

(** [value_category], which classifies beta for Tensile, is declared
    in another header of rocBLAS: its result type and the function are
    parameters. *)
Variable beta_category : Type.
Variable value_category : rocblas_type -> list byte -> beta_category.

Definition ConstructTensileProblem (t : instantiation)
           (prob : RocblasContractionProblem)
  : ContractionProblem beta_category :=
  let Tensile_Ti := tensile_datatype (Ti t) in
  let Tensile_To := tensile_datatype (To t) in
  (* Tensile does not support 0-sized dimensions: pass k = 1 *)
  let k := if prob_k prob =? 0 then 1 else prob_k prob in
  (* a, freeIndex[0].i, boundIndex[0].a *)
  let '(a, free0_i, bound0_a) :=
    if negb (rocblas_operation_eqb (trans_a prob) rocblas_operation_none)
    then ({| td_type := Tensile_Ti;
             td_sizes := [k; prob_m prob; batch_count prob];
             td_strides := [1; ld_a prob; stride_a prob] |}, 1, 0)
    else ({| td_type := Tensile_Ti;
             td_sizes := [prob_m prob; k; batch_count prob];
             td_strides := [1; ld_a prob; stride_a prob] |}, 0, 1) in
  let aops :=
    if is_complex (Ti t)
       && rocblas_operation_eqb (trans_a prob) rocblas_operation_conjugate_transpose
    then [ComplexConjugate] else [] in
  (* b, freeIndex[1].i, boundIndex[0].b *)
  let '(b, free1_i, bound0_b) :=
    if negb (rocblas_operation_eqb (trans_b prob) rocblas_operation_none)
    then ({| td_type := Tensile_Ti;
             td_sizes := [prob_n prob; k; batch_count prob];
             td_strides := [1; ld_b prob; stride_b prob] |}, 0, 1)
    else ({| td_type := Tensile_Ti;
             td_sizes := [k; prob_n prob; batch_count prob];
             td_strides := [1; ld_b prob; stride_b prob] |}, 1, 0) in
  let bops :=
    if is_complex (Ti t)
       && rocblas_operation_eqb (trans_b prob) rocblas_operation_conjugate_transpose
    then [ComplexConjugate] else [] in
  let c := {| td_type := Tensile_To;
              td_sizes := [prob_m prob; prob_n prob; batch_count prob];
              td_strides := [1; ld_c prob; stride_c prob] |} in
  let d := {| td_type := Tensile_To;
              td_sizes := [prob_m prob; prob_n prob; batch_count prob];
              td_strides := [1; ld_d prob; stride_d prob] |} in
  let freeIndex :=
    [ {| isA := true;  fi_i := free0_i; fi_c := 0; fi_d := 0 |};
      {| isA := false; fi_i := free1_i; fi_c := 1; fi_d := 1 |} ] in
  let boundIndex := [ {| bi_a := bound0_a; bi_b := bound0_b |} ] in
  let batchIndex := [ {| ba_a := 2; ba_b := 2; ba_c := 2; ba_d := 2 |} ] in
  let tensileProblem :=
    {| cp_a := a; cp_aops := aops;
       cp_b := b; cp_bops := bops;
       cp_c := c; cp_cops := [];
       cp_d := d; cp_dops := [];
       cp_freeIndices := freeIndex;
       cp_batchIndices := batchIndex;
       cp_boundIndices := boundIndex;
       cp_beta := value_category (Tc t) (beta prob);
       highPrecisionAccumulate := false |} in
  (* If HPA is active, mark it as true *)
  if sizeof (Ti t) <? sizeof (Tc t)
  then setHighPrecisionAccumulate tensileProblem true
  else tensileProblem.

End Construct.

Arguments ConstructTensileProblem {beta_category} value_category t prob.

(** ** Status codes, exceptions, the error stream *)

(** [rocblas_status]: the enumerators the two sources name; the others
    are kept by their number. *)
Inductive rocblas_status : Set :=
| rocblas_status_success
| rocblas_status_invalid_handle
| rocblas_status_not_implemented
| rocblas_status_invalid_pointer
| rocblas_status_invalid_size
| rocblas_status_internal_error
| rocblas_status_other (code : N).

(** What a [throw] carries, as the two handlers tell it apart:
    a [std::exception] with its [what()], or anything else. *)
Inductive exn : Set :=
| std_exception (what : string)
| unknown_exception.

(** How a computation ends: normally, by an exception on its way to the
    nearest handler, or in [rocblas_abort()], which ends the process. *)
Inductive result (A : Type) : Type :=
| Ok (a : A)
| Throw (e : exn)
| Abort.

Arguments Ok {A} a.
Arguments Throw {A} e.
Arguments Abort {A}.

(** How a call into Tensile or HIP ends. *)
Inductive extern_result (A : Type) : Type :=
| Returns (a : A)
| Throws (e : exn).

Arguments Returns {A} a.
Arguments Throws {A} e.

(** The three function-local [static int once] of [runContractionProblem];
    each instantiation of the template has its own three. *)
Inductive site : Set :=
| once_no_solution
| once_std_exception
| once_unknown_exception.

Definition site_eqb (x y : site) : bool :=
  match x, y with
  | once_no_solution, once_no_solution
  | once_std_exception, once_std_exception
  | once_unknown_exception, once_unknown_exception => true
  | _, _ => false
  end.

Definition latch : Set := instantiation * site.

Definition latch_eqb (x y : latch) : bool :=
  instantiation_eqb (fst x) (fst y) && site_eqb (snd x) (snd y).

(** What one [rocblas_cerr << ...] chain writes: the text before the
    problem, the problem streamed after it (its [operator<<] is declared
    in tensile_host.hpp), and whether [std::endl] follows. *)
Record message : Set := {
  msg_text : string;
  msg_prob : option (instantiation * RocblasContractionProblem);
  msg_endl : bool
}.

(** Where a line of the error stream comes from. *)
Inductive origin : Set :=
| from_TensileHost
| from_getTensileHost
| from_once (l : latch).

Record log_entry : Set := { entry_origin : origin; entry_msg : message }.

(** ** The Tensile host *)

(** Solutions, the solution library, the hardware and the kernels of a
    solved problem are opaque to this layer: handles. *)
Definition Solution : Set := N.
Definition KernelInvocation : Set := N.

Record TensileHost : Set := {
  library  : N;
  hardware : N;
  adapter  : list string   (* the code object files loaded, oldest first *)
}.

(** What [glob()] returns: 0 with the paths, or an error code. *)
Inductive glob_return : Set :=
| glob_matched (gl_pathv : list string)
| GLOB_NOMATCH
| GLOB_ABORTED
| GLOB_NOSPACE
| glob_other_error.

(** The environment of the constructor: HIP, libc and Tensile's loaders. *)
Record system : Type := {
  GetCurrentDevice : extern_result N;
  device_arch_id : N;
  getenv : string -> option string;
  dladdr_rocblas_initialize : option string;   (* [info.dli_fname] *)
  dirname : string -> string;
  access_R_OK : string -> bool;                (* [access(path, R_OK) == 0] *)
  strerror_errno : string;
  glob : string -> glob_return;
  loadCodeObjectFile : string -> option exn;   (* [None]: it returned *)
  LoadLibraryFile : string -> extern_result N
}.

(** A kernel submission: [launchKernels(result)] or
    [launchKernels(result, stream, startEvent, stopEvent)]. *)
Record launch : Set := {
  launch_kernels : list KernelInvocation;
  launch_timing  : option (N * N * N)   (* stream, start event, stop event *)
}.

(** The calls [runContractionProblem] makes into Tensile, as a trace. *)
Inductive tensile_call : Set :=
| call_findBestSolution
| call_solve (s : Solution)
| call_launchKernels (l : launch).

(** The state of the process this file touches. *)
Record process : Set := {
  cerr   : list log_entry;        (* [rocblas_cerr], oldest first *)
  fired  : list latch;            (* the [once] statics already initialised *)
  host   : option TensileHost;    (* [static TensileHost host] *)
  calls  : list tensile_call      (* oldest first *)
}.

Definition start : process :=
  {| cerr := []; fired := []; host := None; calls := [] |}.

(** ** A state and exception monad *)

Definition M (S A : Type) : Type := S -> S * result A.

Definition ret {S A} (a : A) : M S A := fun s => (s, Ok a).

Definition bind {S A B} (c : M S A) (f : A -> M S B) : M S B :=
  fun s =>
    match c s with
    | (s', Ok a) => f a s'
    | (s', Throw e) => (s', Throw e)
    | (s', Abort) => (s', Abort)
    end.

Declare Scope m_scope.
Delimit Scope m_scope with m.
Notation "x <- c ;; k" := (bind c (fun x => k))
  (at level 61, c at next level, right associativity) : m_scope.
Notation "c ;; k" := (bind c (fun _ => k))
  (at level 61, right associativity) : m_scope.

(** An external call that returns or throws. *)
Definition extern {S A} (r : extern_result A) : M S A :=
  fun s => match r with Returns a => (s, Ok a) | Throws e => (s, Throw e) end.

Definition throw_if {S} (o : option exn) : M S unit :=
  fun s => match o with None => (s, Ok tt) | Some e => (s, Throw e) end.

Definition rocblas_abort {S A} : M S A := fun s => (s, Abort).

Definition modify {S} (f : S -> S) : M S unit := fun s => (f s, Ok tt).

Definition gets {S A} (f : S -> A) : M S A := fun s => (s, Ok (f s)).

(** [try { body } catch(const std::exception& e) { h1 } catch(...) { h2 }]. *)
Definition try_catch {S A} (body : M S A) (handler : exn -> M S A) : M S A :=
  fun s =>
    match body s with
    | (s', Throw e) => handler e s'
    | r => r
    end.

(** [for(...) body(x)] over a list. *)
Fixpoint for_each {S A} (body : A -> M S unit) (l : list A) : M S unit :=
  match l with
  | [] => ret tt
  | x :: r => bind (body x) (fun _ => for_each body r)
  end.

Local Open Scope string_scope.
Local Open Scope m_scope.

(** [rocblas_cerr << text << std::endl]. *)
Definition line (s : string) : message :=
  {| msg_text := s; msg_prob := None; msg_endl := true |}.

Definition write_cerr (o : origin) (m : message) (p : process) : process :=
  {| cerr := (cerr p ++ [ {| entry_origin := o; entry_msg := m |} ])%list;
     fired := fired p; host := host p; calls := calls p |}.

Definition set_host (h : TensileHost) (p : process) : process :=
  {| cerr := cerr p; fired := fired p; host := Some h; calls := calls p |}.

Definition record_call (c : tensile_call) (p : process) : process :=
  {| cerr := cerr p; fired := fired p; host := host p;
     calls := (calls p ++ [c])%list |}.

(** [std::to_string] of an unsigned number. *)
Definition to_string (n : N) : string := NilEmpty.string_of_uint (N.to_uint n).

Definition TestPath (sys : system) (path : string) : bool := access_R_OK sys path.

(** The value of [path] when the constructor reaches the [glob]: the
    environment variable, or the directory of librocblas.so followed by the
    Tensile library directory and, if it can be read, the processor's. *)
Definition library_path (sys : system) (processor : string) : string :=
  match getenv sys "ROCBLAS_TENSILE_LIBPATH" with
  | Some env => env
  | None =>
      let path :=
        match dladdr_rocblas_initialize sys with
        | Some dli_fname => dirname sys dli_fname
        | None => "/opt/rocm/rocblas/lib"
        end in
      let path :=
        if TestPath sys (path ++ "/../../Tensile/library")
        then path ++ "/../../Tensile/library"
        else path ++ "/library" in
      if TestPath sys (path ++ "/" ++ processor)
      then path ++ "/" ++ processor
      else path
  end.

Definition processor_name (sys : system) : string :=
  "gfx" ++ to_string (device_arch_id sys).

Definition glob_pattern (sys : system) : string :=
  library_path sys (processor_name sys) ++ "/*" ++ processor_name sys ++ "*co".

Definition metadata_path (sys : system) : string :=
  library_path sys (processor_name sys) ++ "/TensileLibrary.yaml".

(** The newline character of the C++ string literals. *)
Definition nl : string := String "010"%char EmptyString.

Definition no_paths_warning (dir : string) : message :=
  line (nl ++ "rocBLAS warning: No paths matched " ++ dir
        ++ ". Make sure that ROCBLAS_TENSILE_LIBPATH is set correctly.").

Definition glob_error_warning (dir : string) (g : glob_return) : message :=
  let quote := String "034"%char EmptyString in
  line ("rocBLAS warning: glob(" ++ quote ++ dir ++ quote ++ ", ...) returned "
        ++ match g with
           | GLOB_ABORTED => "GLOB_ABORTED"
           | GLOB_NOSPACE => "GLOB_NOSPACE"
           | _ => "an unknown error"
           end ++ ".").

Definition cannot_read_error (sys : system) (path : string) : message :=
  line (nl ++ "rocBLAS error: Cannot read " ++ path ++ ": " ++ strerror_errno sys).

(** The constructor [TensileHost::TensileHost()]. *)
Definition TensileHost_ctor (sys : system) : M process TensileHost :=
  hw <- extern (GetCurrentDevice sys) ;;
  let path := library_path sys (processor_name sys) in
  (* only load modules for the current architecture *)
  let dir := glob_pattern sys in
  loaded <-
    match glob sys dir with
    | glob_matched gl_pathv =>
        for_each (fun f => throw_if (loadCodeObjectFile sys f)) gl_pathv ;;
        ret gl_pathv
    | GLOB_NOMATCH =>
        modify (write_cerr from_TensileHost (no_paths_warning dir)) ;;
        ret []
    | g =>
        modify (write_cerr from_TensileHost (glob_error_warning dir g)) ;;
        ret []
    end ;;
  let path := path ++ "/TensileLibrary.yaml" in
  (if negb (TestPath sys path)
   then modify (write_cerr from_TensileHost (cannot_read_error sys path)) ;;
        rocblas_abort
   else ret tt) ;;
  lib <- extern (LoadLibraryFile sys path) ;;
  ret {| library := lib; hardware := hw; adapter := loaded |}.

(** [getTensileHost()]: the host is created on the first call and cached;
    the function-try-block turns an exception of the constructor into a
    message and [rocblas_abort()]. *)
Definition getTensileHost (sys : system) : M process TensileHost :=
  try_catch
    (cached <- gets host ;;
     match cached with
     | Some h => ret h
     | None =>
         h <- TensileHost_ctor sys ;;
         modify (set_host h) ;;
         ret h
     end)
    (fun e =>
       match e with
       | std_exception what =>
           modify (write_cerr from_getTensileHost
                     (line (nl ++ "Could not initialize Tensile host: " ++ what))) ;;
           rocblas_abort
       | unknown_exception =>
           modify (write_cerr from_getTensileHost
                     (line (nl ++ "Could not initialize Tensile host: Unknown exception thrown"))) ;;
           rocblas_abort
       end).

(** [rocblas_initialize()]. *)
Definition rocblas_initialize (sys : system) : M process unit :=
  getTensileHost sys ;; ret tt.

(** ** runContractionProblem *)

(** The local variables of [runContractionProblem] next to the process. *)
Record frame : Set := {
  proc     : process;
  status   : rocblas_status;
  solution : option Solution      (* the [shared_ptr], null at first *)
}.

Definition on_proc (f : process -> process) (fr : frame) : frame :=
  {| proc := f (proc fr); status := status fr; solution := solution fr |}.

Definition set_status (s : rocblas_status) (fr : frame) : frame :=
  {| proc := proc fr; status := s; solution := solution fr |}.

Definition set_solution (s : option Solution) (fr : frame) : frame :=
  {| proc := proc fr; status := status fr; solution := s |}.

(** [static int once = (rocblas_cerr << ..., 0);]: the initialiser runs
    the first time control passes the declaration, and never again. *)
Definition static_once (l : latch) (m : message) (p : process) : process :=
  if existsb (latch_eqb l) (fired p) then p
  else {| cerr := (cerr p ++ [ {| entry_origin := from_once l; entry_msg := m |} ])%list;
          fired := l :: fired p; host := host p; calls := calls p |}.

Definition no_solution_message (t : instantiation)
           (prob : RocblasContractionProblem) : message :=
  {| msg_text := "Error: No Tensile solution found for ";
     msg_prob := Some (t, prob);
     msg_endl := false |}.

Definition std_exception_message (sol : option Solution) (what : string)
           (t : instantiation) (prob : RocblasContractionProblem) : message :=
  {| msg_text := "Error: "
                 ++ (match sol with Some _ => EmptyString | None => "No " end)
                 ++ "Tensile solution found, but " ++ what
                 ++ " exception thown for ";
     msg_prob := Some (t, prob);
     msg_endl := true |}.

Definition unknown_exception_message (sol : option Solution)
           (t : instantiation) (prob : RocblasContractionProblem) : message :=
  {| msg_text := "Error: "
                 ++ (match sol with Some _ => EmptyString | None => "No " end)
                 ++ "Tensile solution found, but unknown exception thown for ";
     msg_prob := Some (t, prob);
     msg_endl := true |}.

(** The launch chosen by [if(handle->startEvent && handle->stopEvent)]. *)
Definition launch_request (handle : rocblas_handle_data)
           (result : list KernelInvocation) : launch :=
  match startEvent handle, stopEvent handle with
  | Some start, Some stop =>
      {| launch_kernels := result;
         launch_timing := Some (rocblas_stream handle, start, stop) |}
  | _, _ => {| launch_kernels := result; launch_timing := None |}
  end.

Section Run.

Variable beta_category : Type.
Variable value_category : rocblas_type -> list byte -> beta_category.

(** What Tensile and HIP do during one call: the constructor of
    [Tensile::ContractionProblem] may throw, and so may the search, the
    solve and the launch. *)
Record tensile : Type := {
  ContractionProblem_ctor : ContractionProblem beta_category -> option exn;
  findBestSolution :
    N -> ContractionProblem beta_category -> N
    -> extern_result (option Solution);
  solve :
    Solution -> ContractionProblem beta_category -> TypedContractionInputs -> N
    -> extern_result (list KernelInvocation);
  launchKernels : launch -> option exn
}.

(** The [try] block and its two handlers. *)
Definition run_body (w : tensile) (host : TensileHost) (t : instantiation)
           (prob : RocblasContractionProblem) : M frame unit :=
  try_catch
    (let tensile_prob := ConstructTensileProblem value_category t prob in
     throw_if (ContractionProblem_ctor w tensile_prob) ;;
     modify (on_proc (record_call call_findBestSolution)) ;;
     sol <- extern (findBestSolution w (library host) tensile_prob (hardware host)) ;;
     modify (set_solution sol) ;;
     match sol with
     | None =>
         (* We print the error message only once, to avoid excessive logging *)
         modify (on_proc (static_once (t, once_no_solution)
                                      (no_solution_message t prob))) ;;
         modify (set_status rocblas_status_not_implemented)
     | Some s =>
         let inputs := GetTensileInputs t prob in
         modify (on_proc (record_call (call_solve s))) ;;
         result <- extern (solve w s tensile_prob inputs (hardware host)) ;;
         let handle := handle prob in
         let l := launch_request handle result in
         modify (on_proc (record_call (call_launchKernels l))) ;;
         throw_if (launchKernels w l) ;;
         modify (set_status rocblas_status_success)
     end)
    (fun e =>
       sol <- gets solution ;;
       match e with
       | std_exception what =>
           modify (on_proc (static_once (t, once_std_exception)
                              (std_exception_message sol what t prob)))
       | unknown_exception =>
           modify (on_proc (static_once (t, once_unknown_exception)
                              (unknown_exception_message sol t prob)))
       end).

(** [runContractionProblem<Ti, To, Tc>(prob)]. *)
Definition runContractionProblem (sys : system) (w : tensile)
           (t : instantiation) (prob : RocblasContractionProblem)
  : M process rocblas_status :=
  host <- getTensileHost sys ;;
  fun p =>
    let fr0 := {| proc := p; status := rocblas_status_internal_error;
                  solution := None |} in
    match run_body w host t prob fr0 with
    | (fr, Ok _) => (proc fr, Ok (status fr))
    | (fr, Throw e) => (proc fr, Throw e)
    | (fr, Abort) => (proc fr, Abort)
    end.

(** The exception, if any, that Tensile raises during one call: while the
    problem is built, a solution is selected, the problem is solved for the
    marshalled inputs, or the kernels are submitted. *)
Definition raised (w : tensile) (host : TensileHost) (t : instantiation)
           (prob : RocblasContractionProblem) : option exn :=
  let tensile_prob := ConstructTensileProblem value_category t prob in
  match ContractionProblem_ctor w tensile_prob with
  | Some e => Some e
  | None =>
      match findBestSolution w (library host) tensile_prob (hardware host) with
      | Throws e => Some e
      | Returns None => None
      | Returns (Some s) =>
          match solve w s tensile_prob (GetTensileInputs t prob) (hardware host) with
          | Throws e => Some e
          | Returns result => launchKernels w (launch_request (handle prob) result)
          end
      end
  end.

(** One call of a client: the instantiation, the problem and what Tensile
    does during the call. *)
Record request : Type := {
  req_t : instantiation;
  req_prob : RocblasContractionProblem;
  req_world : tensile
}.

(** A process serving requests one after the other, until one of them
    ends it; the statuses returned, oldest first. *)
Fixpoint serve (sys : system) (rs : list request) (p : process)
  : process * list (result rocblas_status) :=
  match rs with
  | [] => (p, [])
  | r :: rest =>
      match runContractionProblem sys (req_world r) (req_t r) (req_prob r) p with
      | (p', Abort) => (p', [Abort])
      | (p', out) =>
          let '(p'', outs) := serve sys rest p' in (p'', out :: outs)
      end
  end.

End Run.

Arguments ContractionProblem_ctor {beta_category} _ _.
Arguments findBestSolution {beta_category} _ _ _ _.
Arguments solve {beta_category} _ _ _ _ _.
Arguments launchKernels {beta_category} _ _.
Arguments run_body {beta_category} value_category w host t prob.
Arguments raised {beta_category} value_category w host t prob.
Arguments runContractionProblem {beta_category} value_category sys w t prob.
Arguments req_t {beta_category} _.
Arguments req_prob {beta_category} _.
Arguments req_world {beta_category} _.
Arguments serve {beta_category} value_category sys rs p.

(** ** rocblas_hbmv_batched *)

Module Hbmv.

Local Open Scope Z_scope.

Inductive rocblas_fill : Set :=
| rocblas_fill_upper
| rocblas_fill_lower
| rocblas_fill_full.

Inductive rocblas_pointer_mode : Set :=
| rocblas_pointer_mode_host
| rocblas_pointer_mode_device.

(** The fields of [_rocblas_handle] the function reads. *)
Record _rocblas_handle : Set := {
  layer_mode : N;
  pointer_mode : rocblas_pointer_mode
}.

(** [rocblas_hbmv_name<T>]. *)
Definition rocblas_hbmv_name (T : rocblas_type) : string :=
  match T with
  | rocblas_float_complex => "rocblas_chbmv_batched"
  | rocblas_double_complex => "rocblas_zhbmv_batched"
  | _ => "unknown"
  end.

(** The arguments [rocblas_hbmv_template] is called with, in order. *)
Record template_args : Set := {
  ta_handle : _rocblas_handle;
  ta_uplo : rocblas_fill;
  ta_n : Z;  ta_k : Z;
  ta_alpha : N;
  ta_A : N;  ta_offseta : Z;  ta_lda : Z;  ta_strideA : Z;
  ta_x : N;  ta_offsetx : Z;  ta_incx : Z; ta_stridex : Z;
  ta_beta : N;
  ta_y : N;  ta_offsety : Z;  ta_incy : Z; ta_stridey : Z;
  ta_batch_count : Z
}.

(** An argument of a logging call, as the function writes it.  A string is
    a literal or [rocblas_hbmv_name<T>]; [rocblas_fill_letter],
    [rocblas_precision_string<T>], [log_trace_scalar_value] and the macro
    [LOG_BENCH_SCALAR_VALUE] are declared in other headers of rocBLAS and
    stay applications to what they are given, the macro to the name of
    its argument as well as to its value. *)
Inductive log_arg : Set :=
| arg_string (s : string)
| arg_fill (uplo : rocblas_fill)
| arg_int (i : Z)
| arg_pointer (p : N)
| rocblas_fill_letter (uplo : rocblas_fill)
| rocblas_precision_string (T : rocblas_type)
| log_trace_scalar_value (p : N)
| LOG_BENCH_SCALAR_VALUE (name : string) (p : N).

(** The calls of the variadic logging functions, with the handle and the
    arguments after it, in order. *)
Inductive log_call : Set :=
| log_trace (handle : _rocblas_handle) (args : list log_arg)
| log_bench (handle : _rocblas_handle) (args : list log_arg)
| log_profile (handle : _rocblas_handle) (args : list log_arg).

Section Impl.

(** Declared in other headers of rocBLAS, and so parameters: the macro
    [RETURN_ZERO_DEVICE_MEMORY_SIZE_IF_QUERIED] ([Some s]: it returns [s]
    from the function), the three bits of the layer mode, the kernel
    template and [exception_to_rocblas_status]. *)
Variable RETURN_ZERO_DEVICE_MEMORY_SIZE_IF_QUERIED :
  _rocblas_handle -> option rocblas_status.
Variable rocblas_layer_mode_log_trace : N.
Variable rocblas_layer_mode_log_bench : N.
Variable rocblas_layer_mode_log_profile : N.
Variable rocblas_hbmv_template :
  rocblas_type -> template_args -> extern_result rocblas_status.
Variable exception_to_rocblas_status : exn -> rocblas_status.

(** [if(layer_mode & bits)]. *)
Definition layer_has (layer_mode bits : N) : bool :=
  negb (N.land layer_mode bits =? 0)%N.

(** A pointer is a device or host address; the null pointer is 0. *)
Definition is_null (p : N) : bool := (p =? 0)%N.

Definition rocblas_hbmv_batched_impl (T : rocblas_type)
           (handle : option _rocblas_handle) (uplo : rocblas_fill)
           (n k : Z) (alpha A : N) (lda : Z) (x : N) (incx : Z)
           (beta y : N) (incy batch_count : Z)
  : list log_call * result rocblas_status :=
  match handle with
  | None => ([], Ok rocblas_status_invalid_handle)
  | Some h =>
      match RETURN_ZERO_DEVICE_MEMORY_SIZE_IF_QUERIED h with
      | Some s => ([], Ok s)
      | None =>
          let layer_mode := layer_mode h in
          let logged :=
            if layer_has layer_mode
                 (N.lor rocblas_layer_mode_log_trace
                    (N.lor rocblas_layer_mode_log_bench
                       rocblas_layer_mode_log_profile))
            then
              let uplo_letter := rocblas_fill_letter uplo in
              ((match pointer_mode h with
                | rocblas_pointer_mode_host =>
                    (if layer_has layer_mode rocblas_layer_mode_log_trace
                     then [log_trace h
                             [arg_string (rocblas_hbmv_name T);
                              arg_fill uplo;
                              arg_int n;
                              arg_int k;
                              log_trace_scalar_value alpha;
                              arg_pointer A;
                              arg_int lda;
                              arg_pointer x;
                              arg_int incx;
                              log_trace_scalar_value beta;
                              arg_pointer y;
                              arg_int incy;
                              arg_int batch_count]]
                     else [])
                    ++ (if layer_has layer_mode rocblas_layer_mode_log_bench
                        then [log_bench h
                                [arg_string "./rocblas-bench -f hbmv_batched -r";
                                 rocblas_precision_string T;
                                 arg_string "--uplo";
                                 uplo_letter;
                                 arg_string "-n";
                                 arg_int n;
                                 arg_string "-k";
                                 arg_int k;
                                 LOG_BENCH_SCALAR_VALUE "alpha" alpha;
                                 arg_string "--lda";
                                 arg_int lda;
                                 arg_string "--incx";
                                 arg_int incx;
                                 LOG_BENCH_SCALAR_VALUE "beta" beta;
                                 arg_string "--incy";
                                 arg_int incy;
                                 arg_string "--batch_count";
                                 arg_int batch_count]]
                        else [])
                | rocblas_pointer_mode_device =>
                    if layer_has layer_mode rocblas_layer_mode_log_trace
                    then [log_trace h
                            [arg_string (rocblas_hbmv_name T);
                             arg_fill uplo;
                             arg_int n;
                             arg_int k;
                             arg_pointer alpha;
                             arg_pointer A;
                             arg_int lda;
                             arg_pointer x;
                             arg_int incx;
                             arg_pointer beta;
                             arg_pointer y;
                             arg_int incy;
                             arg_int batch_count]]
                    else []
                end)
               ++ (if layer_has layer_mode rocblas_layer_mode_log_profile
                   then [log_profile h
                           [arg_string (rocblas_hbmv_name T);
                            arg_string "uplo";
                            uplo_letter;
                            arg_string "N";
                            arg_int n;
                            arg_string "K";
                            arg_int k;
                            arg_string "lda";
                            arg_int lda;
                            arg_string "incx";
                            arg_int incx;
                            arg_string "incy";
                            arg_int incy;
                            arg_string "batch_count";
                            arg_int batch_count]]
                   else []))%list
            else [] in
          (logged,
           if (n <? 0) || (k <? 0) || (lda <=? k) || (incx =? 0) || (incy =? 0)
              || (batch_count <? 0)
           then Ok rocblas_status_invalid_size
           else if (n =? 0) || (batch_count =? 0)
           then Ok rocblas_status_success
           else if is_null A || is_null x || is_null y || is_null alpha
                   || is_null beta
           then Ok rocblas_status_invalid_pointer
           else match rocblas_hbmv_template T
                  {| ta_handle := h; ta_uplo := uplo; ta_n := n; ta_k := k;
                     ta_alpha := alpha;
                     ta_A := A; ta_offseta := 0; ta_lda := lda; ta_strideA := 0;
                     ta_x := x; ta_offsetx := 0; ta_incx := incx; ta_stridex := 0;
                     ta_beta := beta;
                     ta_y := y; ta_offsety := 0; ta_incy := incy; ta_stridey := 0;
                     ta_batch_count := batch_count |}
                with
                | Returns s => Ok s
                | Throws e => Throw e
                end)
      end
  end.

(** The body of the two C entry points:
    [try { return impl(...); } catch(...) { return exception_to_rocblas_status(); }]. *)
Definition c_wrapper (r : list log_call * result rocblas_status)
  : list log_call * result rocblas_status :=
  match r with
  | (logged, Throw e) => (logged, Ok (exception_to_rocblas_status e))
  | _ => r
  end.

Definition rocblas_chbmv_batched handle uplo n k alpha A lda x incx beta y incy
           batch_count :=
  c_wrapper (rocblas_hbmv_batched_impl rocblas_float_complex handle uplo n k
               alpha A lda x incx beta y incy batch_count).

Definition rocblas_zhbmv_batched handle uplo n k alpha A lda x incx beta y incy
           batch_count :=
  c_wrapper (rocblas_hbmv_batched_impl rocblas_double_complex handle uplo n k
               alpha A lda x incx beta y incy batch_count).

End Impl.

(** The handle and the arguments of a logging call, and the place of its
    function in the order of the source: [log_trace], [log_bench],
    [log_profile]. *)
Definition log_handle (c : log_call) : _rocblas_handle :=
  match c with
  | log_trace h _ | log_bench h _ | log_profile h _ => h
  end.

Definition log_args (c : log_call) : list log_arg :=
  match c with
  | log_trace _ args | log_bench _ args | log_profile _ args => args
  end.

Definition log_rank (c : log_call) : nat :=
  match c with
  | log_trace _ _ => 0%nat
  | log_bench _ _ => 1%nat
  | log_profile _ _ => 2%nat
  end.

(** The pointers handed to [log_trace_scalar_value] or
    [LOG_BENCH_SCALAR_VALUE], the helpers that make a scalar's value of a
    pointer to it, by the calls of a log, in order. *)
Definition scalar_value_of (a : log_arg) : list N :=
  match a with
  | log_trace_scalar_value p | LOG_BENCH_SCALAR_VALUE _ p => [p]
  | _ => []
  end.

Definition scalar_values_logged (logged : list log_call) : list N :=
  flat_map (fun c => flat_map scalar_value_of (log_args c)) logged.

(** The pointers a logging call is given as they are, and the integers it
    is given, in order. *)
Definition pointers_logged (c : log_call) : list N :=
  flat_map (fun a => match a with arg_pointer p => [p] | _ => [] end)
           (log_args c).

Definition sizes_logged (c : log_call) : list Z :=
  flat_map (fun a => match a with arg_int i => [i] | _ => [] end)
           (log_args c).

End Hbmv.

(** ** Reading the error stream and the environment *)

(** The latches whose initialisers wrote the lines of a log, in order. *)
Definition once_origins (log : list log_entry) : list latch :=
  flat_map (fun e => match entry_origin e with
                     | from_once l => [l]
                     | _ => []
                     end) log.

(** Every latch that wrote a line wrote one line and has fired. *)
Definition latched (p : process) : Prop :=
  NoDup (once_origins (cerr p))
  /\ forall l, In l (once_origins (cerr p)) -> In l (fired p).

(** [c] keeps the invariant [I] of the state, however it ends. *)
Definition preserves {S A} (I : S -> Prop) (c : M S A) : Prop :=
  forall s, I s -> I (fst (c s)).

(** The constructor gets as far as the test of the metadata file: the
    device is found and no code object file fails to load. *)
Definition reaches_metadata_test (sys : system) : bool :=
  match GetCurrentDevice sys with
  | Throws _ => false
  | Returns _ =>
      match glob sys (glob_pattern sys) with
      | glob_matched gl_pathv =>
          forallb (fun f => match loadCodeObjectFile sys f with
                            | None => true
                            | Some _ => false
                            end) gl_pathv
      | _ => true
      end
  end.

(** ** Reading a constructed problem *)

(** The position, in its operand, of free index [i] (0: the one of A,
    1: the one of B), and the positions of the bound index in A and B. *)
Definition free_position {B} (P : ContractionProblem B) (i : nat) : option N :=
  option_map fi_i (nth_error (cp_freeIndices P) i).

Definition bound_position_a {B} (P : ContractionProblem B) : option N :=
  option_map bi_a (nth_error (cp_boundIndices P) 0).

Definition bound_position_b {B} (P : ContractionProblem B) : option N :=
  option_map bi_b (nth_error (cp_boundIndices P) 0).

(** ** Sample inputs *)

Local Open Scope N_scope.

Definition hpa_half : instantiation :=
  {| Ti := rocblas_half; To := rocblas_half; Tc := rocblas_float |}.

(** The bytes of the floats 5.0 (0x40A00000), 2.0 (0x40000000) and
    100000.0 (0x47C35000) on a little-endian host. *)
Definition float_5 : list byte := [x00; x00; xa0; x40].
Definition float_2 : list byte := [x00; x00; x00; x40].
Definition float_100000 : list byte := [x00; x50; xc3; x47].

Definition plain_handle : rocblas_handle_data :=
  {| startEvent := None; stopEvent := None; rocblas_stream := 0 |}.

(** m = n = 64, k = 0, alpha = 5, beta = 100000, nothing transposed. *)
Definition zero_k_problem : RocblasContractionProblem :=
  {| handle := plain_handle;
     trans_a := rocblas_operation_none; trans_b := rocblas_operation_none;
     prob_m := 64; prob_n := 64; prob_k := 0;
     alpha := float_5;
     prob_A := 4096; ld_a := 64; stride_a := 0;
     prob_B := 8192; ld_b := 1; stride_b := 0;
     beta := float_100000;
     prob_C := 12288; ld_c := 64; stride_c := 4096;
     prob_D := 12288; ld_d := 64; stride_d := 4096;
     batch_count := 1 |}.

(** m = 2, n = 3, k = 5, A conjugate-transposed, B transposed. *)
Definition transposed_problem : RocblasContractionProblem :=
  {| handle := plain_handle;
     trans_a := rocblas_operation_conjugate_transpose;
     trans_b := rocblas_operation_transpose;
     prob_m := 2; prob_n := 3; prob_k := 5;
     alpha := float_2;
     prob_A := 4096; ld_a := 5; stride_a := 10;
     prob_B := 8192; ld_b := 3; stride_b := 15;
     beta := float_2;
     prob_C := 12288; ld_c := 2; stride_c := 6;
     prob_D := 12288; ld_d := 2; stride_d := 6;
     batch_count := 1 |}.

(** An installation under /opt/rocm for gfx906 with one code object
    file; [readable] tells which paths can be read and [matches] what the
    glob returns. *)
Definition installation (readable : string -> bool) (matches : glob_return)
  : system :=
  {| GetCurrentDevice := Returns 0;
     device_arch_id := 906;
     getenv := fun _ => None;
     dladdr_rocblas_initialize := Some "/opt/rocm/rocblas/lib/librocblas.so";
     dirname := fun _ => "/opt/rocm/rocblas/lib";
     access_R_OK := readable;
     strerror_errno := "No such file or directory";
     glob := fun _ => matches;
     loadCodeObjectFile := fun _ => None;
     LoadLibraryFile := fun _ => Returns 1 |}.

Definition good_installation : system :=
  installation (fun _ => true)
    (glob_matched
       ["/opt/rocm/rocblas/lib/../../Tensile/library/gfx906/Kernels_gfx906.co"]).

(** Nothing under the library directory can be read. *)
Definition no_metadata_installation : system :=
  installation (fun _ => false) GLOB_NOMATCH.

(** The metadata file is there, no code object file matches. *)
Definition no_kernels_installation : system :=
  installation (fun _ => true) GLOB_NOMATCH.

(** Tensile finding no solution, finding one and launching it, and
    throwing [e] from the search. *)
Definition no_solution_world : tensile unit :=
  {| ContractionProblem_ctor := fun _ => None;
     findBestSolution := fun _ _ _ => Returns None;
     solve := fun _ _ _ _ => Returns [];
     launchKernels := fun _ => None |}.

Definition solving_world : tensile unit :=
  {| ContractionProblem_ctor := fun _ => None;
     findBestSolution := fun _ _ _ => Returns (Some 7);
     solve := fun _ _ _ _ => Returns [1; 2];
     launchKernels := fun _ => None |}.

Definition throwing_world (e : exn) : tensile unit :=
  {| ContractionProblem_ctor := fun _ => None;
     findBestSolution := fun _ _ _ => Throws e;
     solve := fun _ _ _ _ => Returns [];
     launchKernels := fun _ => None |}.

Definition request_in (w : tensile unit) : request unit :=
  {| req_t := non_ex rocblas_float; req_prob := transposed_problem;
     req_world := w |}.

(** A handle that logs nothing and is not asked for its device memory
    size, with the usual values of the three log bits, a kernel template
    that succeeds, and an exception map. *)
Definition quiet_handle : Hbmv._rocblas_handle :=
  {| Hbmv.layer_mode := 0; Hbmv.pointer_mode := Hbmv.rocblas_pointer_mode_host |}.

(** A handle with trace logging on, scalars on the host, and one with all
    three kinds of logging on, scalars on the device. *)
Definition tracing_handle : Hbmv._rocblas_handle :=
  {| Hbmv.layer_mode := 1; Hbmv.pointer_mode := Hbmv.rocblas_pointer_mode_host |}.

Definition logging_device_handle : Hbmv._rocblas_handle :=
  {| Hbmv.layer_mode := 7;
     Hbmv.pointer_mode := Hbmv.rocblas_pointer_mode_device |}.

Definition not_queried (_ : Hbmv._rocblas_handle) : option rocblas_status := None.

Definition template_succeeds (_ : rocblas_type) (_ : Hbmv.template_args)
  : extern_result rocblas_status := Returns rocblas_status_success.

Definition to_internal_error (_ : exn) : rocblas_status :=
  rocblas_status_internal_error.

(** A [value_category] for the sample runs: nothing this file proves looks
    into its result. *)
Definition no_category (_ : rocblas_type) (_ : list byte) : unit := tt.

(** ** Further readings of the source *)

(** The first [static_assert] of [GetTensileInputs]: the Tensile types
    have the sizes of the rocBLAS types, [int8_t] being allowed to differ
    as an input type. *)
Definition GetTensileInputs_static_assert (t : instantiation) : bool :=
  ((tensile_sizeof (rocblas_to_tensile_type (Ti t)) =? sizeof (Ti t))
   || rocblas_type_eqb (Ti t) rocblas_int8)
  && (tensile_sizeof (rocblas_to_tensile_type (To t)) =? sizeof (To t)).

(** The extent of a descriptor at an index position. *)
Definition extent (d : TensorDescriptor) (i : N) : option N :=
  nth_error (td_sizes d) (N.to_nat i).

(** The extent at the position an index has in its operand. *)
Definition extent_at (d : TensorDescriptor) (i : option N) : option N :=
  match i with
  | Some i => extent d i
  | None => None
  end.

(** A problem with k and alpha replaced. *)
Definition with_k_alpha (prob : RocblasContractionProblem) (k : N)
           (a : list byte) : RocblasContractionProblem :=
  {| handle := handle prob;
     trans_a := trans_a prob; trans_b := trans_b prob;
     prob_m := prob_m prob; prob_n := prob_n prob; prob_k := k;
     alpha := a;
     prob_A := prob_A prob; ld_a := ld_a prob; stride_a := stride_a prob;
     prob_B := prob_B prob; ld_b := ld_b prob; stride_b := stride_b prob;
     beta := beta prob;
     prob_C := prob_C prob; ld_c := ld_c prob; stride_c := stride_c prob;
     prob_D := prob_D prob; ld_d := ld_d prob; stride_d := stride_d prob;
     batch_count := batch_count prob |}.

(** The first code object file that fails to load, with its exception. *)
Fixpoint first_load_failure (sys : system) (l : list string) : option exn :=
  match l with
  | [] => None
  | f :: r =>
      match loadCodeObjectFile sys f with
      | Some e => Some e
      | None => first_load_failure sys r
      end
  end.

(** The exception that leaves the constructor of [TensileHost], if any:
    from the detection of the device, from the loading of a code object
    file, or, the metadata file being readable, from its loading. *)
Definition ctor_exception (sys : system) : option exn :=
  match GetCurrentDevice sys with
  | Throws e => Some e
  | Returns _ =>
      match
        match glob sys (glob_pattern sys) with
        | glob_matched gl_pathv => first_load_failure sys gl_pathv
        | _ => None
        end
      with
      | Some e => Some e
      | None =>
          if TestPath sys (metadata_path sys)
          then match LoadLibraryFile sys (metadata_path sys) with
               | Throws e => Some e
               | Returns _ => None
               end
          else None
      end
  end.

(** The line a handler of [getTensileHost] writes for an exception. *)
Definition init_failure_message (e : exn) : message :=
  line (nl ++ "Could not initialize Tensile host: "
        ++ match e with
           | std_exception what => what
           | unknown_exception => "Unknown exception thrown"
           end).

(** The lines the constructor writes about the result of [glob]. *)
Definition glob_lines (sys : system) : list log_entry :=
  match glob sys (glob_pattern sys) with
  | glob_matched _ => []
  | GLOB_NOMATCH =>
      [ {| entry_origin := from_TensileHost;
           entry_msg := no_paths_warning (glob_pattern sys) |} ]
  | g =>
      [ {| entry_origin := from_TensileHost;
           entry_msg := glob_error_warning (glob_pattern sys) g |} ]
  end.

(** The code object files the adapter holds after the constructor. *)
Definition glob_files (sys : system) : list string :=
  match glob sys (glob_pattern sys) with
  | glob_matched gl_pathv => gl_pathv
  | _ => []
  end.

(** What a handler of [runContractionProblem] does to the process for an
    exception caught while [solution] holds [sol]. *)
Definition caught (e : exn) (sol : option Solution) (t : instantiation)
           (prob : RocblasContractionProblem) (p : process) : process :=
  match e with
  | std_exception what =>
      static_once (t, once_std_exception)
                  (std_exception_message sol what t prob) p
  | unknown_exception =>
      static_once (t, once_unknown_exception)
                  (unknown_exception_message sol t prob) p
  end.

(** The lines of a log that do not come from a latch. *)
Definition init_lines (log : list log_entry) : list log_entry :=
  filter (fun e => match entry_origin e with
                   | from_once _ => false
                   | _ => true
                   end) log.

Section RunReadings.

Variable beta_category : Type.
Variable value_category : rocblas_type -> list byte -> beta_category.

(** What [solution] holds when the call ends: the solution the search
    returned, if the search was reached and returned one. *)
Definition found (w : tensile beta_category) (host : TensileHost)
           (t : instantiation) (prob : RocblasContractionProblem)
  : option Solution :=
  let tensile_prob := ConstructTensileProblem value_category t prob in
  match ContractionProblem_ctor w tensile_prob with
  | Some _ => None
  | None =>
      match findBestSolution w (library host) tensile_prob (hardware host) with
      | Returns (Some s) => Some s
      | _ => None
      end
  end.

(** The calls into Tensile a call makes, in order: none if the problem
    cannot be built, the search, then the solve if a solution is found,
    then the launch if the problem is solved. *)
Definition made_calls (w : tensile beta_category) (host : TensileHost)
           (t : instantiation) (prob : RocblasContractionProblem)
  : list tensile_call :=
  let tensile_prob := ConstructTensileProblem value_category t prob in
  match ContractionProblem_ctor w tensile_prob with
  | Some _ => []
  | None =>
      call_findBestSolution
      :: match findBestSolution w (library host) tensile_prob (hardware host) with
         | Returns (Some s) =>
             call_solve s
             :: match solve w s tensile_prob (GetTensileInputs t prob)
                            (hardware host) with
                | Returns result =>
                    [call_launchKernels (launch_request (handle prob) result)]
                | Throws _ => []
                end
         | _ => []
         end
  end.

End RunReadings.

Arguments found {beta_category} value_category w host t prob.
Arguments made_calls {beta_category} value_category w host t prob.

(** A process after a list of calls into Tensile. *)
Definition record_calls (l : list tensile_call) (p : process) : process :=
  fold_left (fun q c => record_call c q) l p.

(** ** The hemv test client: argument check and buffer sizes *)

Module TestingHemv.

Local Open Scope Z_scope.

(** [rocblas_int] is a 32-bit [int], [size_t] has 64 bits. *)
Definition in_int (z : Z) : Prop := - 2 ^ 31 <= z < 2 ^ 31.

Definition wrap_int (z : Z) : Z := (z + 2 ^ 31) mod 2 ^ 32 - 2 ^ 31.

Definition to_size_t (z : Z) : Z := z mod 2 ^ 64.

(** The argument sanity check of [testing_hemv]:
    [N < 0 || lda < N || lda < 1 || !incx || !incy]. *)
Definition invalid_size (N lda incx incy : Z) : bool :=
  (N <? 0) || (lda <? N) || (lda <? 1) || (incx =? 0) || (incy =? 0).

(** [size_t size_A = lda * size_t(N)]. *)
Definition size_A (N lda : Z) : Z :=
  (to_size_t lda * to_size_t N) mod 2 ^ 64.

(** [size_t abs_incx = incx >= 0 ? incx : -incx]. *)
Definition abs_inc (inc : Z) : Z :=
  to_size_t (if 0 <=? inc then inc else wrap_int (- inc)).

(** [size_t size_x = N * abs_incx], and the same for y. *)
Definition size_x (N inc : Z) : Z :=
  (to_size_t N * abs_inc inc) mod 2 ^ 64.

End TestingHemv.

(** A system in which the location of librocblas.so, [dirname] and the
    readable paths are replaced. *)
Definition with_probes (sys : system) (dl : option string)
           (dn : string -> string) (acc : string -> bool) : system :=
  {| GetCurrentDevice := GetCurrentDevice sys;
     device_arch_id := device_arch_id sys;
     getenv := getenv sys;
     dladdr_rocblas_initialize := dl;
     dirname := dn;
     access_R_OK := acc;
     strerror_errno := strerror_errno sys;
     glob := glob sys;
     loadCodeObjectFile := loadCodeObjectFile sys;
     LoadLibraryFile := LoadLibraryFile sys |}.

(** A process with lines added to its error stream. *)
Definition with_lines (p : process) (l : list log_entry) : process :=
  {| cerr := (cerr p ++ l)%list; fired := fired p; host := host p;
     calls := calls p |}.

(** The latches of the instantiations of the file: three for each. *)
Definition all_latches : list latch :=
  flat_map (fun t => [ (t, once_no_solution); (t, once_std_exception);
                       (t, once_unknown_exception) ]) instantiated.

(** An installation without a device, and one whose library path comes
    from the environment. *)
Definition no_device_installation : system :=
  {| GetCurrentDevice := Throws (std_exception "no device");
     device_arch_id := 906;
     getenv := fun _ => None;
     dladdr_rocblas_initialize := None;
     dirname := fun s => s;
     access_R_OK := fun _ => true;
     strerror_errno := "No such file or directory";
     glob := fun _ => GLOB_NOMATCH;
     loadCodeObjectFile := fun _ => None;
     LoadLibraryFile := fun _ => Returns 1 |}.

Definition env_installation : system :=
  {| GetCurrentDevice := Returns 0;
     device_arch_id := 906;
     getenv := fun name =>
                 if String.eqb name "ROCBLAS_TENSILE_LIBPATH"
                 then Some "/data/tensile" else None;
     dladdr_rocblas_initialize := None;
     dirname := fun s => s;
     access_R_OK := fun _ => true;
     strerror_errno := "No such file or directory";
     glob := fun _ => glob_matched ["/data/tensile/Kernels_gfx906.co"];
     loadCodeObjectFile := fun _ => None;
     LoadLibraryFile := fun _ => Returns 1 |}.

(** * Properties *)

(** ** Equality tests *)

Lemma rocblas_type_eqb_eq (x y : rocblas_type) :
  rocblas_type_eqb x y = true <-> x = y.
Proof. destruct x, y; simpl; split; congruence. Qed.

Lemma rocblas_operation_eqb_eq (x y : rocblas_operation) :
  rocblas_operation_eqb x y = true <-> x = y.
Proof. destruct x, y; simpl; split; congruence. Qed.

Lemma instantiation_eqb_eq (x y : instantiation) :
  instantiation_eqb x y = true <-> x = y.
Proof.
  destruct x as [a b c], y as [a' b' c']; unfold instantiation_eqb; simpl.
  rewrite !andb_true_iff, !rocblas_type_eqb_eq.
  split; [intros [[-> ->] ->]; reflexivity | intros E; inversion E; auto].
Qed.

Lemma site_eqb_eq (x y : site) : site_eqb x y = true <-> x = y.
Proof. destruct x, y; simpl; split; congruence. Qed.

Lemma latch_eqb_eq (x y : latch) : latch_eqb x y = true <-> x = y.
Proof.
  destruct x as [t s], y as [t' s']; unfold latch_eqb; simpl.
  rewrite andb_true_iff, instantiation_eqb_eq, site_eqb_eq.
  split; [intros [-> ->]; reflexivity | intros E; inversion E; auto].
Qed.

Lemma is_hpa_half_iff (t : instantiation) :
  is_hpa_half t = true <-> t = hpa_half.
Proof.
  destruct t as [a b c]; unfold is_hpa_half, hpa_half; simpl.
  rewrite !andb_true_iff, !rocblas_type_eqb_eq.
  split; [intros [[-> ->] ->]; reflexivity | intros E; inversion E; auto].
Qed.

(** ** Bytes *)

Lemma le_decode_zeros (n : nat) : le_decode (repeat x00 n) = 0.
Proof. induction n as [|n IH]; simpl; [reflexivity | rewrite IH; reflexivity]. Qed.

Lemma le_encode_length (n : nat) (v : N) : List.length (le_encode n v) = n.
Proof. revert v; induction n as [|n IH]; intros v; simpl; [|rewrite IH]; reflexivity. Qed.

Lemma memcpy_whole (n : N) (src : list byte) :
  N.of_nat (List.length src) <= n -> memcpy n src = src.
Proof. intros H; unfold memcpy; apply firstn_all2; lia. Qed.

Lemma float_to_half_length (src : list byte) : List.length (float_to_half src) = 2%nat.
Proof. unfold float_to_half; apply le_encode_length. Qed.

(** The first [static_assert] of [AlphaBeta::copy] holds at every accumulate
    type of an instantiation of the file. *)
Lemma AlphaBeta_static_assert_holds (t : instantiation) :
  In t instantiated -> AlphaBeta_static_assert t = true.
Proof.
  simpl; intros H.
  repeat (destruct H as [<- | H]; [reflexivity|]); contradiction.
Qed.

Lemma sizeof_le_tensile_sizeof (T : rocblas_type) :
  sizeof T <= tensile_sizeof (rocblas_to_tensile_type T).
Proof. destruct T; simpl; lia. Qed.

(** The narrowing on some floats: 1.0, 0.1, 65504 (the largest half),
    100000 (beyond it: +infinity), the smallest subnormal half, and two
    ties, which go to the even neighbour. *)
Example half_of_float_bits_samples :
  map half_of_float_bits
      [ 0x3F800000; 0x3DCCCCCD; 0x477FE000; 0x47C35000; 0x33800000;
        0x3F801000; 0x3F803000; 0x80000000 ]
  = [ 0x3C00; 0x2E66; 0x7BFF; 0x7C00; 0x0001; 0x3C00; 0x3C02; 0x8000 ].
Proof. vm_compute. reflexivity. Qed.

(** The copy of the primary template leaves a well-sized scalar as it is. *)
Lemma AlphaBeta_primary_copy_id (t : instantiation) (src : list byte) :
  N.of_nat (List.length src) = sizeof (Tc t) ->
  AlphaBeta_primary_copy t src = src.
Proof.
  intros H; unfold AlphaBeta_primary_copy; apply memcpy_whole.
  rewrite H; apply sizeof_le_tensile_sizeof.
Qed.

Lemma AlphaBeta_copy_hpa (src : list byte) :
  AlphaBeta_copy hpa_half src = float_to_half src.
Proof.
  unfold AlphaBeta_copy; simpl.
  unfold AlphaBeta_primary_copy; simpl.
  apply memcpy_whole; rewrite float_to_half_length; simpl; lia.
Qed.

(** ** The problem and the inputs handed to Tensile *)

Section ProblemFacts.

Variable beta_category : Type.
Variable value_category : rocblas_type -> list byte -> beta_category.

Local Abbreviation Construct := (ConstructTensileProblem value_category).

(** The descriptors of A and B, whatever the types and the shape. *)
Lemma Construct_a (t : instantiation) (prob : RocblasContractionProblem) :
  cp_a (Construct t prob)
  = let k := if prob_k prob =? 0 then 1 else prob_k prob in
    {| td_type := tensile_datatype (Ti t);
       td_sizes := match trans_a prob with
                   | rocblas_operation_none => [prob_m prob; k; batch_count prob]
                   | _ => [k; prob_m prob; batch_count prob]
                   end;
       td_strides := [1; ld_a prob; stride_a prob] |}.
Proof.
  unfold ConstructTensileProblem.
  destruct (trans_a prob), (trans_b prob), (sizeof (Ti t) <? sizeof (Tc t));
    reflexivity.
Qed.

Lemma Construct_b (t : instantiation) (prob : RocblasContractionProblem) :
  cp_b (Construct t prob)
  = let k := if prob_k prob =? 0 then 1 else prob_k prob in
    {| td_type := tensile_datatype (Ti t);
       td_sizes := match trans_b prob with
                   | rocblas_operation_none => [k; prob_n prob; batch_count prob]
                   | _ => [prob_n prob; k; batch_count prob]
                   end;
       td_strides := [1; ld_b prob; stride_b prob] |}.
Proof.
  unfold ConstructTensileProblem.
  destruct (trans_a prob), (trans_b prob), (sizeof (Ti t) <? sizeof (Tc t));
    reflexivity.
Qed.

Lemma Construct_indices (t : instantiation) (prob : RocblasContractionProblem) :
  cp_freeIndices (Construct t prob)
  = [ {| isA := true;
         fi_i := match trans_a prob with rocblas_operation_none => 0 | _ => 1 end;
         fi_c := 0; fi_d := 0 |};
      {| isA := false;
         fi_i := match trans_b prob with rocblas_operation_none => 1 | _ => 0 end;
         fi_c := 1; fi_d := 1 |} ]
  /\ cp_boundIndices (Construct t prob)
     = [ {| bi_a := match trans_a prob with rocblas_operation_none => 1 | _ => 0 end;
            bi_b := match trans_b prob with rocblas_operation_none => 0 | _ => 1 end |} ]
  /\ cp_batchIndices (Construct t prob)
     = [ {| ba_a := 2; ba_b := 2; ba_c := 2; ba_d := 2 |} ].
Proof.
  unfold ConstructTensileProblem.
  destruct (trans_a prob), (trans_b prob), (sizeof (Ti t) <? sizeof (Tc t));
    repeat split.
Qed.

Lemma Construct_ops (t : instantiation) (prob : RocblasContractionProblem) :
  cp_aops (Construct t prob)
  = (if is_complex (Ti t)
        && rocblas_operation_eqb (trans_a prob) rocblas_operation_conjugate_transpose
     then [ComplexConjugate] else [])
  /\ cp_bops (Construct t prob)
     = (if is_complex (Ti t)
           && rocblas_operation_eqb (trans_b prob) rocblas_operation_conjugate_transpose
        then [ComplexConjugate] else []).
Proof.
  unfold ConstructTensileProblem.
  destruct (trans_a prob), (trans_b prob), (sizeof (Ti t) <? sizeof (Tc t));
    split; reflexivity.
Qed.

Lemma Construct_flag (t : instantiation) (prob : RocblasContractionProblem) :
  highPrecisionAccumulate (Construct t prob) = (sizeof (Ti t) <? sizeof (Tc t)).
Proof.
  unfold ConstructTensileProblem.
  destruct (trans_a prob), (trans_b prob), (sizeof (Ti t) <? sizeof (Tc t));
    reflexivity.
Qed.

(** C1, as amended.  When the contraction extent k is 0: alpha in the
    marshalled inputs is the all-zero bytes of the kernel-native scalar
    type (the value 0), whatever alpha the caller gave; beta is marshalled
    by the scalar copy of the type pairing, which depends on nothing but
    the caller's beta: the bytes are the caller's for every pairing but
    half/half/float, where they are the float narrowed to half; and the
    descriptors of A and B carry the extent 1 where k stands. *)
Theorem C1_zero_contraction_extent
        (t : instantiation) (prob : RocblasContractionProblem) :
  prob_k prob = 0 ->
  let inputs := GetTensileInputs t prob in
  let P := Construct t prob in
  in_alpha inputs
  = repeat x00 (N.to_nat (tensile_sizeof (AlphaBeta_tensile_type t)))
  /\ le_decode (in_alpha inputs) = 0
  /\ (forall prob', beta prob' = beta prob ->
        in_beta (GetTensileInputs t prob') = in_beta inputs)
  /\ (is_hpa_half t = false ->
      N.of_nat (List.length (beta prob)) = sizeof (Tc t) ->
      in_beta inputs = beta prob)
  /\ (is_hpa_half t = true -> in_beta inputs = float_to_half (beta prob))
  /\ td_sizes (cp_a P)
     = match trans_a prob with
       | rocblas_operation_none => [prob_m prob; 1; batch_count prob]
       | _ => [1; prob_m prob; batch_count prob]
       end
  /\ td_sizes (cp_b P)
     = match trans_b prob with
       | rocblas_operation_none => [1; prob_n prob; batch_count prob]
       | _ => [prob_n prob; 1; batch_count prob]
       end.
Proof.
  intros Hk inputs P; subst inputs P.
  assert (Ha : in_alpha (GetTensileInputs t prob)
               = repeat x00 (N.to_nat (tensile_sizeof (AlphaBeta_tensile_type t)))).
  { unfold GetTensileInputs; simpl; rewrite Hk; reflexivity. }
  split; [exact Ha|].
  split; [rewrite Ha; apply le_decode_zeros|].
  split; [intros prob' Hb; unfold GetTensileInputs; simpl; rewrite Hb; reflexivity|].
  split.
  { intros Hh Hl; unfold GetTensileInputs; simpl.
    unfold AlphaBeta_copy; rewrite Hh; apply AlphaBeta_primary_copy_id, Hl. }
  split.
  { intros Hh; apply is_hpa_half_iff in Hh; subst t.
    unfold GetTensileInputs; simpl in_beta; apply AlphaBeta_copy_hpa. }
  rewrite Construct_a, Construct_b, Hk; simpl.
  split; reflexivity.
Qed.

(** C2, as amended.  With k' the extent passed for k (1 when k is 0):
    A has the extents (k', m, batch), free index position 1 and bound
    index position 0 when it is transposed, and (m, k', batch), 0 and 1
    when it is not.  B is the other way round: (n, k', batch), free
    position 0 and bound position 1 when it is transposed, and
    (k', n, batch), 1 and 0 when it is not.  In all four cases the strides
    are (1, leading dimension, batch stride). *)
Theorem C2_operand_layout
        (t : instantiation) (prob : RocblasContractionProblem) :
  let P := Construct t prob in
  let k' := if prob_k prob =? 0 then 1 else prob_k prob in
  (trans_a prob <> rocblas_operation_none ->
   td_sizes (cp_a P) = [k'; prob_m prob; batch_count prob]
   /\ free_position P 0 = Some 1 /\ bound_position_a P = Some 0)
  /\ (trans_a prob = rocblas_operation_none ->
      td_sizes (cp_a P) = [prob_m prob; k'; batch_count prob]
      /\ free_position P 0 = Some 0 /\ bound_position_a P = Some 1)
  /\ (trans_b prob <> rocblas_operation_none ->
      td_sizes (cp_b P) = [prob_n prob; k'; batch_count prob]
      /\ free_position P 1 = Some 0 /\ bound_position_b P = Some 1)
  /\ (trans_b prob = rocblas_operation_none ->
      td_sizes (cp_b P) = [k'; prob_n prob; batch_count prob]
      /\ free_position P 1 = Some 1 /\ bound_position_b P = Some 0)
  /\ td_strides (cp_a P) = [1; ld_a prob; stride_a prob]
  /\ td_strides (cp_b P) = [1; ld_b prob; stride_b prob].
Proof.
  intros P k'; subst P k'.
  destruct (Construct_indices t prob) as (Hf & Hb & _).
  unfold free_position, bound_position_a, bound_position_b.
  rewrite Construct_a, Construct_b, Hf, Hb; simpl.
  destruct (trans_a prob), (trans_b prob);
    repeat split; try reflexivity; intros; congruence.
Qed.

(** C3.  A complex-conjugate operator is in the tensor-op set of A (of B)
    if and only if A's (B's) transpose mode is conjugate-transpose and the
    input element type is complex; with a real input type both sets are
    empty, as they are for a plain transpose. *)
Theorem C3_conjugate_operator
        (t : instantiation) (prob : RocblasContractionProblem) :
  let P := Construct t prob in
  (In ComplexConjugate (cp_aops P)
   <-> trans_a prob = rocblas_operation_conjugate_transpose
       /\ is_complex (Ti t) = true)
  /\ (In ComplexConjugate (cp_bops P)
      <-> trans_b prob = rocblas_operation_conjugate_transpose
          /\ is_complex (Ti t) = true)
  /\ (is_complex (Ti t) = false -> cp_aops P = [] /\ cp_bops P = [])
  /\ (trans_a prob = rocblas_operation_transpose -> cp_aops P = [])
  /\ (trans_b prob = rocblas_operation_transpose -> cp_bops P = []).
Proof.
  intros P; subst P.
  destruct (Construct_ops t prob) as [-> ->].
  destruct (is_complex (Ti t)), (trans_a prob), (trans_b prob); simpl;
    repeat split; intros; try tauto; try congruence; try discriminate;
    repeat match goal with
           | H : _ /\ _ |- _ => destruct H
           | H : _ \/ _ |- _ => destruct H
           end; try congruence; try contradiction; auto.
Qed.

(** C4.  The high-precision-accumulate flag of the constructed problem is
    true if and only if the accumulate type is wider than the input type;
    this holds of every type triple, so of every instantiation. *)
Theorem C4_high_precision_accumulate
        (t : instantiation) (prob : RocblasContractionProblem) :
  highPrecisionAccumulate (Construct t prob) = true
  <-> sizeof (Ti t) < sizeof (Tc t).
Proof. rewrite Construct_flag; apply N.ltb_lt. Qed.

End ProblemFacts.

(** Of the eight instantiations, the three with distinct accumulate type
    are those with the flag. *)
Lemma flagged_instantiations :
  filter (fun t => highPrecisionAccumulate
                     (ConstructTensileProblem no_category t zero_k_problem))
         instantiated
  = [ hpa_half;
      {| Ti := rocblas_bfloat16; To := rocblas_bfloat16; Tc := rocblas_float |};
      {| Ti := rocblas_int8; To := rocblas_int32; Tc := rocblas_int32 |} ].
Proof. reflexivity. Qed.

(** C1, counterexample.  Half storage with float accumulate, k = 0 and
    beta = 100000: the beta handed to the kernel is the two bytes of the
    half +infinity, not the four bytes the caller supplied. *)
Lemma C1_beta_is_narrowed :
  prob_k zero_k_problem = 0
  /\ beta zero_k_problem = [x00; x50; xc3; x47]
  /\ in_beta (GetTensileInputs hpa_half zero_k_problem) = [x00; x7c]
  /\ in_beta (GetTensileInputs hpa_half zero_k_problem) <> beta zero_k_problem.
Proof. repeat split; vm_compute; discriminate. Qed.

(** C1 at the sample problem with k = 0, for half/half/float and for float. *)
Lemma C1_zero_contraction_extent_witness :
  prob_k zero_k_problem = 0
  /\ in_alpha (GetTensileInputs hpa_half zero_k_problem) = [x00; x00]
  /\ in_alpha (GetTensileInputs (non_ex rocblas_float) zero_k_problem)
     = [x00; x00; x00; x00].
Proof.
  split; [reflexivity|]; split.
  - exact (proj1 (C1_zero_contraction_extent unit no_category hpa_half
                    zero_k_problem eq_refl)).
  - exact (proj1 (C1_zero_contraction_extent unit no_category
                    (non_ex rocblas_float) zero_k_problem eq_refl)).
Defined.

(** C2, counterexample.  B transposed with n = 3 and k = 5: extent 0 of
    B's descriptor is the free extent n, the free index sits at position 0
    and the bound index at position 1; B is not contracted-dimension-first. *)
Lemma C2_transposed_B_is_free_first :
  let P := ConstructTensileProblem no_category (non_ex rocblas_float)
                                   transposed_problem in
  trans_b transposed_problem = rocblas_operation_transpose
  /\ prob_n transposed_problem = 3 /\ prob_k transposed_problem = 5
  /\ td_sizes (cp_b P) = [3; 5; 1]
  /\ free_position P 1 = Some 0
  /\ bound_position_b P = Some 1
  /\ td_sizes (cp_b P) <> [5; 3; 1].
Proof. repeat split; vm_compute; discriminate. Qed.

(** C2 at the sample problem with both operands transposed. *)
Lemma C2_operand_layout_witness :
  let P := ConstructTensileProblem no_category (non_ex rocblas_float)
                                   transposed_problem in
  td_sizes (cp_a P) = [5; 2; 1] /\ td_sizes (cp_b P) = [3; 5; 1].
Proof.
  pose proof (C2_operand_layout unit no_category (non_ex rocblas_float)
                transposed_problem) as (Ha & _ & Hb & _).
  split.
  - apply Ha; discriminate.
  - apply Hb; discriminate.
Defined.

(** C3 for complex double, A conjugate-transposed and B transposed. *)
Lemma C3_conjugate_operator_witness :
  let P := ConstructTensileProblem no_category (non_ex rocblas_double_complex)
                                   transposed_problem in
  In ComplexConjugate (cp_aops P) /\ cp_bops P = [].
Proof.
  pose proof (C3_conjugate_operator unit no_category
                (non_ex rocblas_double_complex) transposed_problem)
    as (Ha & _ & _ & _ & Hb).
  split.
  - apply Ha; split; reflexivity.
  - apply Hb; reflexivity.
Defined.

(** C4 for half/half/float, which has the flag, and float, which has not. *)
Lemma C4_high_precision_accumulate_witness :
  highPrecisionAccumulate
    (ConstructTensileProblem no_category hpa_half zero_k_problem) = true
  /\ highPrecisionAccumulate
       (ConstructTensileProblem no_category (non_ex rocblas_float) zero_k_problem)
     <> true.
Proof.
  split.
  - apply (C4_high_precision_accumulate unit no_category hpa_half
             zero_k_problem); reflexivity.
  - intros H.
    apply (C4_high_precision_accumulate unit no_category (non_ex rocblas_float)
             zero_k_problem) in H.
    revert H; vm_compute; discriminate.
Defined.

(** C9.  For half storage with float accumulate the scalar copy first
    narrows the float to a half and then copies the two bytes of the half;
    for every other instantiation of the file the copy leaves the bytes of
    a scalar of the accumulate type as they are, the kernel-native scalar
    type having the size of the accumulate type. *)
Theorem C9_scalar_copy (t : instantiation) (src : list byte) :
  (t = hpa_half ->
   AlphaBeta_copy t src
   = AlphaBeta_primary_copy (non_ex rocblas_half) (float_to_half src)
   /\ AlphaBeta_copy t src = float_to_half src
   /\ AlphaBeta_tensile_type t = Half
   /\ List.length (AlphaBeta_copy t src) = 2%nat)
  /\ (In t instantiated -> t <> hpa_half ->
      N.of_nat (List.length src) = sizeof (Tc t) ->
      AlphaBeta_copy t src = src
      /\ AlphaBeta_copy t src = memcpy (sizeof (Tc t)) src
      /\ tensile_sizeof (AlphaBeta_tensile_type t) = sizeof (Tc t)).
Proof.
  split.
  - intros ->. rewrite AlphaBeta_copy_hpa.
    split; [|split; [reflexivity|split; [reflexivity|apply float_to_half_length]]].
    unfold AlphaBeta_primary_copy; simpl. symmetry.
    apply memcpy_whole; rewrite float_to_half_length; simpl; lia.
  - intros Hin Hne Hlen.
    assert (Hh : is_hpa_half t = false).
    { destruct (is_hpa_half t) eqn:E; [|reflexivity].
      apply is_hpa_half_iff in E; contradiction. }
    unfold AlphaBeta_copy, AlphaBeta_tensile_type; rewrite Hh.
    rewrite (AlphaBeta_primary_copy_id t src Hlen).
    split; [reflexivity|]; split.
    + symmetry; apply memcpy_whole; lia.
    + pose proof (AlphaBeta_static_assert_holds t Hin) as Hs.
      unfold AlphaBeta_static_assert in Hs; apply N.eqb_eq in Hs; auto.
Qed.

(** C9 on the bytes of 100000.0: narrowed to the half +infinity, and
    copied as they are for float. *)
Lemma C9_scalar_copy_witness :
  AlphaBeta_copy hpa_half float_100000 = [x00; x7c]
  /\ AlphaBeta_copy (non_ex rocblas_float) float_100000 = float_100000.
Proof.
  split.
  - pose proof (proj1 (C9_scalar_copy hpa_half float_100000) eq_refl)
      as (_ & H & _).
    rewrite H; reflexivity.
  - refine (proj1 (proj2 (C9_scalar_copy (non_ex rocblas_float) float_100000)
                     _ _ _)).
    + simpl; auto.
    + discriminate.
    + reflexivity.
Defined.

(** ** The monad: what a computation leaves of an invariant *)

Ltac unfold_m :=
  unfold bind, ret, extern, throw_if, modify, gets, try_catch, rocblas_abort.

Create HintDb preserves.

Lemma preserves_ret {S A} (I : S -> Prop) (a : A) : preserves I (ret a).
Proof. intros s H; exact H. Qed.

Lemma preserves_extern {S A} (I : S -> Prop) (r : extern_result A) :
  preserves I (extern r).
Proof. intros s H; destruct r; exact H. Qed.

Lemma preserves_throw_if {S} (I : S -> Prop) (o : option exn) :
  preserves I (throw_if o).
Proof. intros s H; destruct o; exact H. Qed.

Lemma preserves_abort {S A} (I : S -> Prop) : preserves I (@rocblas_abort S A).
Proof. intros s H; exact H. Qed.

Lemma preserves_gets {S A} (I : S -> Prop) (f : S -> A) : preserves I (gets f).
Proof. intros s H; exact H. Qed.

Lemma preserves_modify {S} (I : S -> Prop) (f : S -> S) :
  (forall s, I s -> I (f s)) -> preserves I (modify f).
Proof. intros Hf s H; apply Hf, H. Qed.

Lemma preserves_bind {S A B} (I : S -> Prop) (c : M S A) (f : A -> M S B) :
  preserves I c -> (forall a, preserves I (f a)) -> preserves I (bind c f).
Proof.
  intros Hc Hf s H; unfold bind.
  specialize (Hc s H); destruct (c s) as [s' [a|e|]]; simpl in *; auto.
  apply Hf, Hc.
Qed.

Lemma preserves_try_catch {S A} (I : S -> Prop) (c : M S A) (h : exn -> M S A) :
  preserves I c -> (forall e, preserves I (h e)) -> preserves I (try_catch c h).
Proof.
  intros Hc Hh s H; unfold try_catch.
  specialize (Hc s H); destruct (c s) as [s' [a|e|]]; simpl in *; auto.
  apply Hh, Hc.
Qed.

Lemma preserves_for_each {S A} (I : S -> Prop) (body : A -> M S unit) l :
  (forall x, preserves I (body x)) -> preserves I (for_each body l).
Proof.
  intros Hb; induction l as [|x l IH]; simpl.
  - apply preserves_ret.
  - apply preserves_bind; auto.
Qed.

#[export] Hint Resolve preserves_ret preserves_extern preserves_throw_if
  preserves_abort preserves_gets preserves_bind preserves_try_catch
  preserves_for_each : preserves.

(** Loading the matched code object files leaves the process as it is and
    does not end it; it returns when no file fails to load. *)
Lemma load_all (sys : system) (l : list string) (p : process) :
  exists r, for_each (fun f => throw_if (loadCodeObjectFile sys f)) l p = (p, r)
            /\ r <> Abort
            /\ (forallb (fun f => match loadCodeObjectFile sys f with
                                  | None => true
                                  | Some _ => false
                                  end) l = true -> r = Ok tt).
Proof.
  induction l as [|f l (r & E & Hr & Hok)]; simpl.
  - exists (Ok tt); split; [reflexivity|split; [discriminate|reflexivity]].
  - unfold bind at 1, throw_if at 1.
    destruct (loadCodeObjectFile sys f) as [e|]; simpl.
    + exists (Throw e); split; [reflexivity|split; discriminate].
    + rewrite E. exists r; split; [destruct r; reflexivity|split; assumption].
Qed.

(** ** The one-shot latches *)

Lemma once_origins_app (a b : list log_entry) :
  once_origins (a ++ b) = (once_origins a ++ once_origins b)%list.
Proof. unfold once_origins; apply flat_map_app. Qed.

Lemma latched_start : latched start.
Proof. split; [constructor | intros l []]. Qed.

Lemma latched_write_cerr (o : origin) (m : message) (p : process) :
  (forall l, o <> from_once l) -> latched p -> latched (write_cerr o m p).
Proof.
  intros Ho [Hn Hf]; unfold latched, write_cerr; simpl.
  rewrite once_origins_app; simpl.
  destruct o; try (exfalso; eapply Ho; reflexivity);
    simpl; rewrite app_nil_r; split; auto.
Qed.

Lemma latched_set_host (h : TensileHost) (p : process) :
  latched p -> latched (set_host h p).
Proof. intros H; exact H. Qed.

Lemma latched_record_call (c : tensile_call) (p : process) :
  latched p -> latched (record_call c p).
Proof. intros H; exact H. Qed.

Lemma fired_existsb (l : latch) (ls : list latch) :
  existsb (latch_eqb l) ls = true <-> In l ls.
Proof.
  rewrite existsb_exists; split.
  - intros (x & Hx & E); apply latch_eqb_eq in E; subst; exact Hx.
  - intros H; exists l; split; [exact H | apply latch_eqb_eq; reflexivity].
Qed.


Lemma latched_static_once (l : latch) (m : message) (p : process) :
  latched p -> latched (static_once l m p).
Proof.
  intros [Hn Hf]; unfold static_once.
  destruct (existsb (latch_eqb l) (fired p)) eqn:E; [split; assumption|].
  assert (Hl : ~ In l (fired p)).
  { intros H; apply fired_existsb in H; congruence. }
  unfold latched; simpl; rewrite once_origins_app; simpl; split.
  - apply NoDup_app; [exact Hn | repeat constructor; intros [] |].
    intros x Hx [<-|[]]; apply Hl, Hf, Hx.
  - intros x Hx; apply in_app_or in Hx as [Hx|[<-|[]]]; [right; auto | left; reflexivity].
Qed.

#[export] Hint Resolve latched_set_host latched_record_call latched_static_once
  : preserves.

Lemma preserves_TensileHost_ctor (sys : system) :
  preserves latched (TensileHost_ctor sys).
Proof.
  unfold TensileHost_ctor.
  apply preserves_bind; [auto with preserves|]; intros hw.
  apply preserves_bind.
  - destruct (glob sys (glob_pattern sys)); auto with preserves;
      (apply preserves_bind; [|auto with preserves]);
      apply preserves_modify; intros s; apply latched_write_cerr; discriminate.
  - intros loaded; apply preserves_bind; [|auto with preserves].
    destruct (negb _); auto with preserves.
    apply preserves_bind; [|auto with preserves].
    apply preserves_modify; intros s; apply latched_write_cerr; discriminate.
Qed.

Lemma preserves_getTensileHost (sys : system) :
  preserves latched (getTensileHost sys).
Proof.
  unfold getTensileHost; apply preserves_try_catch.
  - apply preserves_bind; [auto with preserves|]; intros [h|]; auto with preserves.
    apply preserves_bind; [apply preserves_TensileHost_ctor|]; intros h.
    apply preserves_bind; [|auto with preserves].
    apply preserves_modify; auto with preserves.
  - intros [what|]; (apply preserves_bind; [|auto with preserves]);
      apply preserves_modify; intros s; apply latched_write_cerr; discriminate.
Qed.

(** ** getTensileHost *)

Lemma getTensileHost_cached (sys : system) (p : process) (h : TensileHost) :
  host p = Some h -> getTensileHost sys p = (p, Ok h).
Proof. intros H; unfold getTensileHost; unfold_m; rewrite H; reflexivity. Qed.

(** [getTensileHost] returns the cached host or ends the process; no
    exception leaves it, and it makes no call into the solution library. *)
Lemma getTensileHost_outcome (sys : system) (p : process) :
  let r := getTensileHost sys p in
  match snd r with
  | Ok h => host (fst r) = Some h
  | Throw _ => False
  | Abort => host (fst r) = host p
  end
  /\ calls (fst r) = calls p /\ fired (fst r) = fired p.
Proof.
  unfold getTensileHost, TensileHost_ctor; unfold_m; cbv zeta.
  destruct (host p) as [h|] eqn:Hh; simpl; [auto|].
  destruct (GetCurrentDevice sys) as [hw|[what|]]; simpl; auto.
  destruct (glob sys (glob_pattern sys)) as [l| | | |]; simpl.
  1: destruct (load_all sys l p) as (r & E & Hr & _); unfold throw_if in E;
     rewrite E; destruct r as [[]|[what|]|]; simpl; auto; try congruence.
  all: destruct (TestPath sys _); simpl; auto;
    destruct (LoadLibraryFile sys _) as [lib|[what|]]; simpl; auto.
Qed.

Section RunFacts.

Variable beta_category : Type.
Variable value_category : rocblas_type -> list byte -> beta_category.

Local Abbreviation run := (runContractionProblem value_category).

(** The [try] block with its handlers always completes; the status it
    leaves is the initial one when Tensile raised an exception, and
    otherwise tells whether a solution was found. *)
Lemma run_body_status w h t prob fr :
  let P := ConstructTensileProblem value_category t prob in
  let r := run_body value_category w h t prob fr in
  snd r = Ok tt
  /\ status (fst r)
     = match raised value_category w h t prob with
       | Some _ => status fr
       | None =>
           match findBestSolution w (library h) P (hardware h) with
           | Returns None => rocblas_status_not_implemented
           | _ => rocblas_status_success
           end
       end.
Proof.
  unfold run_body, raised; unfold_m; cbv zeta.
  destruct (ContractionProblem_ctor w _) as [[|]|]; simpl; auto.
  destruct (findBestSolution w _ _ _) as [[s|]|[|]]; simpl; auto.
  destruct (solve w s _ _ _) as [ks|[|]]; simpl; auto.
  destruct (launchKernels w _) as [[|]|]; simpl; auto.
Qed.

(** A call on a process whose host is there. *)
Lemma run_with_host sys w t prob p p1 h :
  getTensileHost sys p = (p1, Ok h) ->
  let fr := fst (run_body value_category w h t prob
                   {| proc := p1; status := rocblas_status_internal_error;
                      solution := None |}) in
  run sys w t prob p = (proc fr, Ok (status fr)).
Proof.
  intros E fr; subst fr; unfold runContractionProblem, bind; rewrite E.
  pose proof (run_body_status w h t prob
                {| proc := p1; status := rocblas_status_internal_error;
                   solution := None |}) as [Hr _].
  cbv zeta in Hr.
  destruct (run_body value_category w h t prob _) as [fr r]; simpl in *.
  subst r; reflexivity.
Qed.

(** A call on a process that cannot get its host ends with the process. *)
Lemma run_without_host sys w t prob p :
  snd (getTensileHost sys p) = Abort ->
  run sys w t prob p = (fst (getTensileHost sys p), Abort).
Proof.
  intros E; unfold runContractionProblem, bind.
  destruct (getTensileHost sys p) as [p1 r]; simpl in *; subst r; reflexivity.
Qed.

(** C5.  No call of [runContractionProblem] lets an exception through to
    its caller.  Once the Tensile host is there, the call returns one of
    success, not-implemented and internal-error, and it returns
    internal-error exactly when an exception was raised while the problem
    was built, a solution selected, the problem solved for the marshalled
    inputs or the kernels submitted. *)
Theorem C5_exceptions_become_status sys w t prob p :
  (forall e, snd (run sys w t prob p) <> Throw e)
  /\ (forall h, snd (getTensileHost sys p) = Ok h ->
      exists s,
        snd (run sys w t prob p) = Ok s
        /\ In s [rocblas_status_success; rocblas_status_not_implemented;
                 rocblas_status_internal_error]
        /\ (raised value_category w h t prob <> None
            <-> s = rocblas_status_internal_error)).
Proof.
  pose proof (getTensileHost_outcome sys p) as (Ho & _); cbv zeta in Ho.
  destruct (getTensileHost sys p) as [p1 [h| |]] eqn:E; simpl in Ho.
  - pose proof (run_with_host sys w t prob p p1 h E) as R; cbv zeta in R.
    pose proof (run_body_status w h t prob
                  {| proc := p1; status := rocblas_status_internal_error;
                     solution := None |}) as [_ Hs].
    cbv zeta in Hs; simpl status in Hs.
    split; [intros e; rewrite R; discriminate|].
    intros h' Eh; simpl in Eh; injection Eh as <-.
    eexists; split; [rewrite R; reflexivity|]; rewrite Hs.
    destruct (raised value_category w h t prob) as [e|].
    + split; [simpl; auto|]; split; [reflexivity|discriminate].
    + destruct (findBestSolution w _ _ _) as [[s|]|e]; simpl;
        (split; [auto|]); split; intros H; congruence.
  - contradiction.
  - rewrite run_without_host by (rewrite E; reflexivity).
    split; [intros e; discriminate|intros h; discriminate].
Qed.

(** C6.  When the host is not there yet and TensileLibrary.yaml under the
    library path cannot be read, [getTensileHost] ends the process: the
    host stays absent and no call into the solution library is made; if
    the constructor gets as far as the test of the file, the last line of
    the error stream is "rocBLAS error: Cannot read", the path of the file
    and the text of the error.  [rocblas_initialize] and every
    [runContractionProblem] end the process in the same way, so no request
    is served. *)
Theorem C6_missing_metadata_aborts sys p :
  host p = None ->
  TestPath sys (metadata_path sys) = false ->
  let p' := fst (getTensileHost sys p) in
  snd (getTensileHost sys p) = Abort
  /\ host p' = None /\ calls p' = calls p
  /\ (reaches_metadata_test sys = true ->
      exists warnings,
        cerr p'
        = (cerr p ++ warnings
           ++ [ {| entry_origin := from_TensileHost;
                   entry_msg :=
                     line (nl ++ "rocBLAS error: Cannot read "
                           ++ metadata_path sys ++ ": "
                           ++ strerror_errno sys) |} ])%list)
  /\ snd (rocblas_initialize sys p) = Abort
  /\ (forall w t prob, run sys w t prob p = (p', Abort))
  /\ (forall r rs, serve value_category sys (r :: rs) p = (p', [Abort])).
Proof.
  intros Hh Hm p'.
  assert (Ha : snd (getTensileHost sys p) = Abort
               /\ (reaches_metadata_test sys = true ->
                   exists warnings,
                     cerr p'
                     = (cerr p ++ warnings
                        ++ [ {| entry_origin := from_TensileHost;
                                entry_msg := cannot_read_error sys (metadata_path sys) |} ])%list)).
  { subst p'; unfold getTensileHost, TensileHost_ctor, reaches_metadata_test.
    unfold_m; cbv zeta; rewrite Hh; simpl.
    destruct (GetCurrentDevice sys) as [hw|[what|]]; simpl;
      [|split; [reflexivity|discriminate] ..].
    fold (metadata_path sys).
    destruct (glob sys (glob_pattern sys)) as [l| | | |]; simpl.
    1: { destruct (load_all sys l p) as (r & E & Hr & Hok); unfold throw_if in E;
         rewrite E; destruct r as [[]|[what|]|]; simpl; [| | |congruence].
         - rewrite Hm; simpl; split; [reflexivity|].
           intros _; exists []; reflexivity.
         - split; [reflexivity|]. intros H; specialize (Hok H); discriminate.
         - split; [reflexivity|]. intros H; specialize (Hok H); discriminate. }
    all: rewrite Hm; simpl; split; [reflexivity|]; intros _;
      rewrite <- app_assoc; eexists; reflexivity. }
  destruct Ha as [Ha Hlog].
  pose proof (getTensileHost_outcome sys p) as (Ho & Hc & _); cbv zeta in Ho.
  rewrite Ha in Ho.
  split; [exact Ha|].
  split; [subst p'; congruence|].
  split; [exact Hc|].
  split; [exact Hlog|].
  split.
  { unfold rocblas_initialize, bind.
    destruct (getTensileHost sys p) as [p1 r]; simpl in *; subst r; reflexivity. }
  assert (Hrun : forall w t prob, run sys w t prob p = (p', Abort)).
  { intros w t prob; apply run_without_host, Ha. }
  split; [exact Hrun|].
  intros r rs; simpl; rewrite Hrun; reflexivity.
Qed.

(** C7.  When the host is not there yet, the device is found, no code
    object file matches the glob, and the metadata file is read and
    loaded: [getTensileHost] returns a host with no code object, having
    written one line, the warning, to the error stream.  On every later
    call in which the problem is built and the search returns no solution,
    [runContractionProblem] returns not-implemented, and the search is the
    only call it makes into Tensile: nothing is solved or launched. *)
Theorem C7_no_kernels_not_implemented sys p hw lib :
  host p = None ->
  GetCurrentDevice sys = Returns hw ->
  glob sys (glob_pattern sys) = GLOB_NOMATCH ->
  TestPath sys (metadata_path sys) = true ->
  LoadLibraryFile sys (metadata_path sys) = Returns lib ->
  let h := {| library := lib; hardware := hw; adapter := [] |} in
  getTensileHost sys p
  = ({| cerr := (cerr p ++ [ {| entry_origin := from_TensileHost;
                                entry_msg := no_paths_warning (glob_pattern sys) |} ])%list;
        fired := fired p; host := Some h; calls := calls p |}, Ok h)
  /\ (forall q w t prob,
        host q = Some h ->
        let P := ConstructTensileProblem value_category t prob in
        ContractionProblem_ctor w P = None ->
        findBestSolution w lib P hw = Returns None ->
        snd (run sys w t prob q) = Ok rocblas_status_not_implemented
        /\ calls (fst (run sys w t prob q))
           = (calls q ++ [call_findBestSolution])%list
        /\ host (fst (run sys w t prob q)) = Some h).
Proof.
  intros Hh Hd Hg Hm Hl h; split.
  - unfold getTensileHost, TensileHost_ctor; unfold_m; cbv zeta.
    rewrite Hh, Hd; simpl; rewrite Hg; simpl.
    fold (metadata_path sys); rewrite Hm, Hl; simpl. reflexivity.
  - intros q w t prob Hq P Hc Hf; subst P.
    pose proof (run_with_host sys w t prob q q h
                  (getTensileHost_cached sys q h Hq)) as R.
    cbv zeta in R; rewrite R; clear R.
    unfold run_body; unfold_m; cbv zeta.
    rewrite Hc; simpl. subst h; simpl in *. rewrite Hf; simpl.
    unfold static_once.
    match goal with
    | |- context [existsb ?f ?l] => destruct (existsb f l)
    end; simpl; auto.
Qed.

(** Every call leaves the latches as they should be. *)
Lemma preserves_run sys w t prob : preserves latched (run sys w t prob).
Proof.
  unfold runContractionProblem.
  apply preserves_bind; [apply preserves_getTensileHost|].
  intros h p Hp.
  assert (Hb : preserves (fun fr => latched (proc fr))
                         (run_body value_category w h t prob)).
  { unfold run_body; apply preserves_try_catch.
    - apply preserves_bind; [auto with preserves|]; intros _.
      apply preserves_bind; [apply preserves_modify; intros s Hs; exact Hs|].
      intros _; apply preserves_bind; [auto with preserves|]; intros sol.
      apply preserves_bind; [apply preserves_modify; intros s Hs; exact Hs|].
      intros _; destruct sol as [s|].
      + apply preserves_bind; [apply preserves_modify; intros s' Hs; exact Hs|].
        intros _; apply preserves_bind; [auto with preserves|]; intros ks.
        apply preserves_bind; [apply preserves_modify; intros s' Hs; exact Hs|].
        intros _; apply preserves_bind; [auto with preserves|]; intros _.
        apply preserves_modify; intros s' Hs; exact Hs.
      + apply preserves_bind; [|intros _; apply preserves_modify; intros s Hs; exact Hs].
        apply preserves_modify; intros s Hs; simpl; apply latched_static_once, Hs.
    - intros e; apply preserves_bind; [auto with preserves|]; intros sol.
      destruct e; apply preserves_modify; intros s Hs; simpl;
        apply latched_static_once, Hs. }
  specialize (Hb {| proc := p; status := rocblas_status_internal_error;
                    solution := None |} Hp).
  destruct (run_body value_category w h t prob _) as [fr [u|e|]]; exact Hb.
Qed.

Lemma latched_serve sys rs p :
  latched p -> latched (fst (serve value_category sys rs p)).
Proof.
  revert p; induction rs as [|r rs IH]; intros p Hp; simpl; [exact Hp|].
  pose proof (preserves_run sys (req_world r) (req_t r) (req_prob r) p Hp) as H1.
  destruct (runContractionProblem _ _ _ _ _ p) as [p1 [s|e|]]; simpl in *;
    try exact H1;
    specialize (IH p1 H1);
    destruct (serve value_category sys rs p1) as [p2 outs]; exact IH.
Qed.


End RunFacts.


(** A shape without solution, retried a thousand times on a sound
    installation: not-implemented every time, one line in the error
    stream, and a thousand searches. *)
Example no_solution_retried :
  let out := serve no_category good_installation
                   (repeat (request_in no_solution_world) 1000) start in
  snd out = repeat (Ok rocblas_status_not_implemented) 1000
  /\ map entry_msg (cerr (fst out))
     = [ no_solution_message (non_ex rocblas_float) transposed_problem ]
  /\ calls (fst out) = repeat call_findBestSolution 1000.
Proof. vm_compute; repeat split. Qed.

(** m = n = 64, k = 0, alpha = 5 in single precision with a solution at
    hand: success, and the kernel is handed alpha = 0. *)
Example zero_k_dispatched :
  snd (runContractionProblem no_category good_installation solving_world
         (non_ex rocblas_float) zero_k_problem start)
  = Ok rocblas_status_success
  /\ in_alpha (GetTensileInputs (non_ex rocblas_float) zero_k_problem)
     = [x00; x00; x00; x00]
  /\ calls (fst (runContractionProblem no_category good_installation
                   solving_world (non_ex rocblas_float) zero_k_problem start))
     = [ call_findBestSolution; call_solve 7;
         call_launchKernels {| launch_kernels := [1; 2]; launch_timing := None |} ].
Proof. vm_compute; repeat split. Qed.


(** C5 at a call in which the search throws. *)
Lemma C5_exceptions_become_status_witness :
  snd (getTensileHost good_installation start)
  = Ok {| library := 1; hardware := 0;
          adapter :=
            ["/opt/rocm/rocblas/lib/../../Tensile/library/gfx906/Kernels_gfx906.co"%string] |}
  /\ snd (runContractionProblem no_category good_installation
            (throwing_world (std_exception "bad_alloc"))
            (non_ex rocblas_float) transposed_problem start)
     = Ok rocblas_status_internal_error.
Proof.
  split; [reflexivity|].
  destruct (proj2 (C5_exceptions_become_status unit no_category
                     good_installation
                     (throwing_world (std_exception "bad_alloc"))
                     (non_ex rocblas_float) transposed_problem start)
                  _ eq_refl) as (s & E & _ & Hi).
  rewrite E; f_equal; apply Hi; vm_compute; discriminate.
Defined.

(** C6 at an installation where nothing can be read. *)
Lemma C6_missing_metadata_aborts_witness :
  host start = None
  /\ TestPath no_metadata_installation (metadata_path no_metadata_installation)
     = false
  /\ snd (getTensileHost no_metadata_installation start) = Abort.
Proof.
  split; [reflexivity|]; split; [reflexivity|].
  exact (proj1 (C6_missing_metadata_aborts unit no_category
                  no_metadata_installation start eq_refl eq_refl)).
Defined.

(** C7 at an installation without code object files. *)
Lemma C7_no_kernels_not_implemented_witness :
  snd (getTensileHost no_kernels_installation start)
  = Ok {| library := 1; hardware := 0; adapter := [] |}
  /\ snd (runContractionProblem no_category no_kernels_installation
            no_solution_world (non_ex rocblas_float) transposed_problem
            (fst (getTensileHost no_kernels_installation start)))
     = Ok rocblas_status_not_implemented.
Proof.
  pose proof (C7_no_kernels_not_implemented unit no_category
                no_kernels_installation start 0 1
                eq_refl eq_refl eq_refl eq_refl eq_refl) as [Hi Hr].
  split; [rewrite Hi; reflexivity|].
  apply (Hr (fst (getTensileHost no_kernels_installation start))
            no_solution_world (non_ex rocblas_float) transposed_problem);
    reflexivity.
Defined.

(** ** rocblas_hbmv_batched *)

Section HbmvFacts.

Import Hbmv.

Variable RETURN_ZERO_DEVICE_MEMORY_SIZE_IF_QUERIED :
  _rocblas_handle -> option rocblas_status.
Variable rocblas_layer_mode_log_trace : N.
Variable rocblas_layer_mode_log_bench : N.
Variable rocblas_layer_mode_log_profile : N.
Variable rocblas_hbmv_template :
  rocblas_type -> template_args -> extern_result rocblas_status.
Variable exception_to_rocblas_status : exn -> rocblas_status.

Local Open Scope Z_scope.

(** What the implementation returns once the handle is there and the
    macro lets it go on: the result of the three tests, in their order,
    then of the kernel template. *)
Lemma impl_past_the_macro T h uplo n k alpha A lda x incx beta y incy batch_count :
  RETURN_ZERO_DEVICE_MEMORY_SIZE_IF_QUERIED h = None ->
  snd (rocblas_hbmv_batched_impl RETURN_ZERO_DEVICE_MEMORY_SIZE_IF_QUERIED
         rocblas_layer_mode_log_trace rocblas_layer_mode_log_bench
         rocblas_layer_mode_log_profile rocblas_hbmv_template
         T (Some h) uplo n k alpha A lda x incx beta y incy batch_count)
  = if (n <? 0) || (k <? 0) || (lda <=? k) || (incx =? 0) || (incy =? 0)
       || (batch_count <? 0)
    then Ok rocblas_status_invalid_size
    else if (n =? 0) || (batch_count =? 0)
    then Ok rocblas_status_success
    else if is_null A || is_null x || is_null y || is_null alpha || is_null beta
    then Ok rocblas_status_invalid_pointer
    else match rocblas_hbmv_template T
                 {| ta_handle := h; ta_uplo := uplo; ta_n := n; ta_k := k;
                    ta_alpha := alpha;
                    ta_A := A; ta_offseta := 0; ta_lda := lda; ta_strideA := 0;
                    ta_x := x; ta_offsetx := 0; ta_incx := incx; ta_stridex := 0;
                    ta_beta := beta;
                    ta_y := y; ta_offsety := 0; ta_incy := incy; ta_stridey := 0;
                    ta_batch_count := batch_count |}
         with
         | Returns s => Ok s
         | Throws e => Throw e
         end.
Proof. intros H; unfold rocblas_hbmv_batched_impl; rewrite H; reflexivity. Qed.

Lemma c_wrapper_Ok r (s : rocblas_status) :
  snd r = Ok s -> snd (c_wrapper exception_to_rocblas_status r) = Ok s.
Proof. destruct r as [l [s'|e|]]; simpl; intros H; congruence. Qed.

Lemma c_wrapper_fst r :
  fst (c_wrapper exception_to_rocblas_status r) = fst r.
Proof. destruct r as [l [s|e|]]; reflexivity. Qed.

Lemma layer_has_true l b : layer_has l b = true <-> N.land l b <> 0%N.
Proof. unfold layer_has; rewrite negb_true_iff, N.eqb_neq; tauto. Qed.

Lemma layer_has_false l b : layer_has l b = false <-> N.land l b = 0%N.
Proof. unfold layer_has; rewrite negb_false_iff, N.eqb_eq; tauto. Qed.

(** [layer_mode & (a | b)] is non-zero when [layer_mode & a] or
    [layer_mode & b] is. *)
Lemma layer_has_lor l a b :
  layer_has l (N.lor a b) = layer_has l a || layer_has l b.
Proof.
  destruct (layer_has l a) eqn:Ea, (layer_has l b) eqn:Eb; simpl;
    rewrite ?layer_has_true, ?layer_has_false in *;
    rewrite N.land_lor_distr_r, N.lor_eq_0_iff; tauto.
Qed.

(** The logging calls of an entry point are those of the implementation,
    with the test of the three bits together split into its three. *)
Local Ltac logged_by_cases Hq h :=
  unfold rocblas_chbmv_batched, rocblas_zhbmv_batched;
  rewrite ?c_wrapper_fst; unfold rocblas_hbmv_batched_impl;
  rewrite Hq; cbv zeta; cbn [fst]; rewrite !layer_has_lor;
  destruct (layer_has (layer_mode h) rocblas_layer_mode_log_trace) eqn:Et,
           (layer_has (layer_mode h) rocblas_layer_mode_log_bench) eqn:Eb,
           (layer_has (layer_mode h) rocblas_layer_mode_log_profile) eqn:Ep,
           (pointer_mode h) eqn:Em;
  rewrite ?layer_has_true, ?layer_has_false in *;
  cbn.

(** C10.  For [rocblas_chbmv_batched] and [rocblas_zhbmv_batched] called
    with a handle that the device-memory-size macro lets through.  When the
    sizes are valid (n >= 0, k >= 0, lda > k, incx and incy not 0,
    batch_count >= 0) and n or batch_count is 0, the call returns success
    whatever the pointers alpha, A, x, beta and y are, null included, and
    whatever the kernel template would do; when a size is invalid, the
    call returns invalid-size whatever the pointers are, null included.
    Before either return the logging calls the handle asks for are made:
    with none of the three log bits nothing is logged; in device pointer
    mode no scalar value is asked for; in host pointer mode with the trace
    or the bench bit the values of alpha and of beta are asked for,
    through [log_trace_scalar_value] or [LOG_BENCH_SCALAR_VALUE], whatever
    the sizes; and a value is never asked for of anything but alpha and
    beta. *)
Theorem C10_hbmv_batched_argument_checks
        entry h uplo n k alpha A lda x incx beta y incy batch_count :
  entry = rocblas_chbmv_batched RETURN_ZERO_DEVICE_MEMORY_SIZE_IF_QUERIED
            rocblas_layer_mode_log_trace rocblas_layer_mode_log_bench
            rocblas_layer_mode_log_profile rocblas_hbmv_template
            exception_to_rocblas_status
  \/ entry = rocblas_zhbmv_batched RETURN_ZERO_DEVICE_MEMORY_SIZE_IF_QUERIED
               rocblas_layer_mode_log_trace rocblas_layer_mode_log_bench
               rocblas_layer_mode_log_profile rocblas_hbmv_template
               exception_to_rocblas_status ->
  RETURN_ZERO_DEVICE_MEMORY_SIZE_IF_QUERIED h = None ->
  let logged :=
    fst (entry (Some h) uplo n k alpha A lda x incx beta y incy batch_count) in
  (0 <= n -> 0 <= k -> k < lda -> incx <> 0 -> incy <> 0 -> 0 <= batch_count ->
   n = 0 \/ batch_count = 0 ->
   snd (entry (Some h) uplo n k alpha A lda x incx beta y incy batch_count)
   = Ok rocblas_status_success
   /\ snd (entry (Some h) uplo n k 0%N 0%N lda 0%N incx 0%N 0%N incy batch_count)
      = Ok rocblas_status_success)
  /\ (n < 0 \/ k < 0 \/ lda <= k \/ incx = 0 \/ incy = 0 \/ batch_count < 0 ->
      snd (entry (Some h) uplo n k alpha A lda x incx beta y incy batch_count)
      = Ok rocblas_status_invalid_size
      /\ snd (entry (Some h) uplo n k 0%N 0%N lda 0%N incx 0%N 0%N incy batch_count)
         = Ok rocblas_status_invalid_size)
  /\ (N.land (layer_mode h)
             (N.lor rocblas_layer_mode_log_trace
                (N.lor rocblas_layer_mode_log_bench
                   rocblas_layer_mode_log_profile)) = 0%N ->
      logged = [])
  /\ (pointer_mode h = rocblas_pointer_mode_device ->
      scalar_values_logged logged = [])
  /\ (pointer_mode h = rocblas_pointer_mode_host ->
      N.land (layer_mode h) rocblas_layer_mode_log_trace <> 0%N
      \/ N.land (layer_mode h) rocblas_layer_mode_log_bench <> 0%N ->
      In alpha (scalar_values_logged logged)
      /\ In beta (scalar_values_logged logged))
  /\ (forall p, In p (scalar_values_logged logged) -> p = alpha \/ p = beta).
Proof.
  intros He Hq logged; split; [|split].
  - intros Hn Hk Hl Hx Hy Hb H0.
    assert (Hs : (n <? 0) || (k <? 0) || (lda <=? k) || (incx =? 0)
                 || (incy =? 0) || (batch_count <? 0) = false).
    { rewrite !orb_false_iff; repeat split;
        first [apply Z.ltb_ge | apply Z.leb_gt | apply Z.eqb_neq]; lia. }
    assert (Hz : (n =? 0) || (batch_count =? 0) = true).
    { apply orb_true_iff; destruct H0; [left|right]; apply Z.eqb_eq; assumption. }
    destruct He; subst entry;
      unfold rocblas_chbmv_batched, rocblas_zhbmv_batched;
      split; apply c_wrapper_Ok; rewrite impl_past_the_macro by exact Hq;
      rewrite Hs, Hz; reflexivity.
  - intros H.
    assert (Hs : (n <? 0) || (k <? 0) || (lda <=? k) || (incx =? 0)
                 || (incy =? 0) || (batch_count <? 0) = true).
    { rewrite !orb_true_iff.
      destruct H as [H|[H|[H|[H|[H|H]]]]];
        [ do 5 left | do 4 left; right | do 3 left; right | do 2 left; right
          | left; right | right ];
        first [apply Z.ltb_lt | apply Z.leb_le | apply Z.eqb_eq]; assumption. }
    destruct He; subst entry;
      unfold rocblas_chbmv_batched, rocblas_zhbmv_batched;
      split; apply c_wrapper_Ok; rewrite impl_past_the_macro by exact Hq;
      rewrite Hs; reflexivity.
  - subst logged.
    assert (H3 : forall a b c : N,
               N.land (layer_mode h) (N.lor a (N.lor b c)) = 0%N ->
               N.land (layer_mode h) a = 0%N /\ N.land (layer_mode h) b = 0%N
               /\ N.land (layer_mode h) c = 0%N).
    { intros a b c H; rewrite !N.land_lor_distr_r, !N.lor_eq_0_iff in H; tauto. }
    destruct He; subst entry; logged_by_cases Hq h;
      (split; [intros H0; apply H3 in H0; try reflexivity; tauto|]);
      (split; [intros H0; try reflexivity; discriminate|]);
      (split; [intros Hm H0; try discriminate Hm; try tauto; auto 10|]);
      intros p Hp; intuition congruence.
Qed.

End HbmvFacts.

(** C10 with null pointers everywhere: n = 0, and n = -1; and with trace
    logging in host pointer mode, n = 0. *)
Lemma C10_hbmv_batched_argument_checks_witness :
  snd (Hbmv.rocblas_chbmv_batched not_queried 1 2 4 template_succeeds
         to_internal_error (Some quiet_handle) Hbmv.rocblas_fill_upper
         0 0 0 0 1 0 1 0 0 1 5)
  = Ok rocblas_status_success
  /\ snd (Hbmv.rocblas_zhbmv_batched not_queried 1 2 4 template_succeeds
            to_internal_error (Some quiet_handle) Hbmv.rocblas_fill_upper
            (-1) 0 0 0 1 0 1 0 0 1 5)
     = Ok rocblas_status_invalid_size
  /\ fst (Hbmv.rocblas_chbmv_batched not_queried 1 2 4 template_succeeds
            to_internal_error (Some quiet_handle) Hbmv.rocblas_fill_upper
            0 0 4096 0 1 0 1 8192 0 1 5)
     = []
  /\ In 4096%N
        (Hbmv.scalar_values_logged
           (fst (Hbmv.rocblas_chbmv_batched not_queried 1 2 4 template_succeeds
                   to_internal_error (Some tracing_handle)
                   Hbmv.rocblas_fill_upper 0 0 4096 0 1 0 1 8192 0 1 5))).
Proof.
  split; [|split; [|split]].
  - refine (proj1 (proj1 (C10_hbmv_batched_argument_checks not_queried 1 2 4
                            template_succeeds to_internal_error _ quiet_handle
                            Hbmv.rocblas_fill_upper 0 0 0 0 1 0 1 0 0 1 5
                            (or_introl eq_refl) eq_refl) _ _ _ _ _ _ _)%Z);
      try lia; left; reflexivity.
  - refine (proj1 (proj1 (proj2 (C10_hbmv_batched_argument_checks not_queried
                            1 2 4 template_succeeds to_internal_error _
                            quiet_handle Hbmv.rocblas_fill_upper
                            (-1) 0 0 0 1 0 1 0 0 1 5
                            (or_intror eq_refl) eq_refl)) _));
      left; lia.
  - exact (proj1 (proj2 (proj2 (C10_hbmv_batched_argument_checks not_queried
                            1 2 4 template_succeeds to_internal_error _
                            quiet_handle Hbmv.rocblas_fill_upper
                            0 0 4096 0 1 0 1 8192 0 1 5
                            (or_introl eq_refl) eq_refl)%Z)) eq_refl).
  - refine (proj1 (proj1 (proj2 (proj2 (proj2 (proj2
              (C10_hbmv_batched_argument_checks not_queried
                 1 2 4 template_succeeds to_internal_error _
                 tracing_handle Hbmv.rocblas_fill_upper
                 0 0 4096 0 1 0 1 8192 0 1 5
                 (or_introl eq_refl) eq_refl)%Z)))) eq_refl _)).
    left; discriminate.
Defined.

(** C10 as it was claimed fails with trace logging on and the scalars on
    the host: the call with n = 0 returns success, and before it returns
    it has passed alpha and beta to [log_trace_scalar_value] inside its
    call of [log_trace]. *)
Lemma C10_scalars_are_logged_before_return :
  let call :=
    Hbmv.rocblas_chbmv_batched not_queried 1 2 4 template_succeeds
      to_internal_error (Some tracing_handle) Hbmv.rocblas_fill_upper
      0 0 4096 0 1 0 1 8192 0 1 5 in
  snd call = Ok rocblas_status_success
  /\ fst call
     = [ Hbmv.log_trace tracing_handle
           [ Hbmv.arg_string "rocblas_chbmv_batched";
             Hbmv.arg_fill Hbmv.rocblas_fill_upper;
             Hbmv.arg_int 0;
             Hbmv.arg_int 0;
             Hbmv.log_trace_scalar_value 4096;
             Hbmv.arg_pointer 0;
             Hbmv.arg_int 1;
             Hbmv.arg_pointer 0;
             Hbmv.arg_int 1;
             Hbmv.log_trace_scalar_value 8192;
             Hbmv.arg_pointer 0;
             Hbmv.arg_int 1;
             Hbmv.arg_int 5 ] ]
  /\ Hbmv.scalar_values_logged (fst call) = [4096%N; 8192%N]
  /\ Hbmv.scalar_values_logged (fst call) <> [].
Proof. vm_compute; repeat split; discriminate. Qed.

(** * Further properties *)

(** ** The constructed problem as a whole *)

Section MoreProblemFacts.

Variable beta_category : Type.
Variable value_category : rocblas_type -> list byte -> beta_category.

Local Abbreviation Construct := (ConstructTensileProblem value_category).

Lemma Construct_cd (t : instantiation) (prob : RocblasContractionProblem) :
  cp_c (Construct t prob)
  = {| td_type := tensile_datatype (To t);
       td_sizes := [prob_m prob; prob_n prob; batch_count prob];
       td_strides := [1; ld_c prob; stride_c prob] |}
  /\ cp_d (Construct t prob)
     = {| td_type := tensile_datatype (To t);
          td_sizes := [prob_m prob; prob_n prob; batch_count prob];
          td_strides := [1; ld_d prob; stride_d prob] |}
  /\ cp_cops (Construct t prob) = [] /\ cp_dops (Construct t prob) = [].
Proof.
  unfold ConstructTensileProblem.
  destruct (trans_a prob), (trans_b prob), (sizeof (Ti t) <? sizeof (Tc t));
    repeat split.
Qed.

(** The indices of the constructed problem agree with its four
    descriptors: A's extent at its free index and C's and D's at that
    index's positions are m; B's extent at its free index and C's and D's
    at that index's positions are n; A and B have the same extent, the one
    passed for k and never 0, at their bound index; and all four have
    batch_count at the batch index. *)
Theorem problem_indices_consistent
        (t : instantiation) (prob : RocblasContractionProblem) :
  let P := Construct t prob in
  let k' := if prob_k prob =? 0 then 1 else prob_k prob in
  let free i := nth_error (cp_freeIndices P) i in
  let batch := nth_error (cp_batchIndices P) 0 in
  extent_at (cp_a P) (free_position P 0) = Some (prob_m prob)
  /\ extent_at (cp_c P) (option_map fi_c (free 0%nat)) = Some (prob_m prob)
  /\ extent_at (cp_d P) (option_map fi_d (free 0%nat)) = Some (prob_m prob)
  /\ extent_at (cp_b P) (free_position P 1) = Some (prob_n prob)
  /\ extent_at (cp_c P) (option_map fi_c (free 1%nat)) = Some (prob_n prob)
  /\ extent_at (cp_d P) (option_map fi_d (free 1%nat)) = Some (prob_n prob)
  /\ extent_at (cp_a P) (bound_position_a P) = Some k'
  /\ extent_at (cp_b P) (bound_position_b P) = Some k'
  /\ k' <> 0
  /\ extent_at (cp_a P) (option_map ba_a batch) = Some (batch_count prob)
  /\ extent_at (cp_b P) (option_map ba_b batch) = Some (batch_count prob)
  /\ extent_at (cp_c P) (option_map ba_c batch) = Some (batch_count prob)
  /\ extent_at (cp_d P) (option_map ba_d batch) = Some (batch_count prob)
  /\ option_map isA (free 0%nat) = Some true
  /\ option_map isA (free 1%nat) = Some false.
Proof.
  intros P k' free batch; subst P k' free batch.
  destruct (Construct_indices _ value_category t prob) as (Hf & Hb & Hba).
  destruct (Construct_cd t prob) as (Hc & Hd & _).
  unfold free_position, bound_position_a, bound_position_b.
  rewrite (Construct_a _ value_category), (Construct_b _ value_category),
    Hc, Hd, Hf, Hb, Hba.
  assert (Hk : (if prob_k prob =? 0 then 1 else prob_k prob) <> 0).
  { destruct (prob_k prob =? 0) eqn:E; [discriminate|].
    apply N.eqb_neq in E; exact E. }
  destruct (trans_a prob), (trans_b prob); cbn;
    repeat (split; [first [reflexivity | exact Hk]|]); reflexivity.
Qed.

(** The workaround for k = 0, taken together: for every instantiation of
    the file, a problem with k = 0 gives Tensile the very problem and the
    very inputs of the same problem with k = 1 and alpha = 0, whatever
    alpha the caller gave. *)
Theorem zero_k_is_zero_alpha
        (t : instantiation) (prob : RocblasContractionProblem) :
  In t instantiated ->
  prob_k prob = 0 ->
  let prob1 := with_k_alpha prob 1 (repeat x00 (N.to_nat (sizeof (Tc t)))) in
  Construct t prob = Construct t prob1
  /\ GetTensileInputs t prob = GetTensileInputs t prob1.
Proof.
  intros Hin Hk prob1; subst prob1; split.
  - unfold ConstructTensileProblem; simpl; rewrite Hk; reflexivity.
  - unfold GetTensileInputs; simpl; rewrite Hk; simpl.
    f_equal.
    simpl in Hin.
    repeat (destruct Hin as [<- | Hin]; [vm_compute; reflexivity|]);
      contradiction.
Qed.

End MoreProblemFacts.

(** [zero_k_is_zero_alpha] at the sample problem, in single precision. *)
Lemma zero_k_is_zero_alpha_witness :
  GetTensileInputs (non_ex rocblas_float) zero_k_problem
  = GetTensileInputs (non_ex rocblas_float)
      (with_k_alpha zero_k_problem 1 [x00; x00; x00; x00]).
Proof.
  refine (proj2 (zero_k_is_zero_alpha unit no_category (non_ex rocblas_float)
                   zero_k_problem _ eq_refl)).
  simpl; auto.
Defined.

(** ** The static assertions and the sizes of the scalars *)

(** Every instantiation of the file passes the size assertions of
    [GetTensileInputs] and of [AlphaBeta::copy], and the allowance for
    [int8_t] is needed by the instantiation with that input type and by no
    other: it is the only one whose input type and Tensile type differ in
    size. *)
Theorem static_asserts_hold (t : instantiation) :
  In t instantiated ->
  GetTensileInputs_static_assert t = true
  /\ AlphaBeta_static_assert t = true
  /\ (tensile_sizeof (rocblas_to_tensile_type (Ti t)) <> sizeof (Ti t)
      <-> Ti t = rocblas_int8)
  /\ tensile_sizeof (rocblas_to_tensile_type (To t)) = sizeof (To t).
Proof.
  intros Hin; simpl in Hin.
  repeat (destruct Hin as [<- | Hin];
          [repeat split; try reflexivity;
           simpl; intros H; first [discriminate | congruence | exfalso; apply H; reflexivity]
          |]); contradiction.
Qed.

Lemma static_asserts_hold_witness :
  GetTensileInputs_static_assert
    {| Ti := rocblas_int8; To := rocblas_int32; Tc := rocblas_int32 |} = true.
Proof.
  refine (proj1 (static_asserts_hold _ _)); simpl; auto 10.
Defined.

(** For every instantiation of the file and scalars of the accumulate
    type, alpha and beta in the inputs have the size of the kernel-native
    scalar type, whether k is 0 or not. *)
Theorem marshalled_scalar_sizes
        (t : instantiation) (prob : RocblasContractionProblem) :
  In t instantiated ->
  N.of_nat (List.length (alpha prob)) = sizeof (Tc t) ->
  N.of_nat (List.length (beta prob)) = sizeof (Tc t) ->
  let inputs := GetTensileInputs t prob in
  N.of_nat (List.length (in_alpha inputs))
  = tensile_sizeof (AlphaBeta_tensile_type t)
  /\ N.of_nat (List.length (in_beta inputs))
     = tensile_sizeof (AlphaBeta_tensile_type t).
Proof.
  intros Hin Ha Hb inputs; subst inputs.
  assert (Hc : forall src, N.of_nat (List.length src) = sizeof (Tc t) ->
                           N.of_nat (List.length (AlphaBeta_copy t src))
                           = tensile_sizeof (AlphaBeta_tensile_type t)).
  { intros src Hs.
    destruct (is_hpa_half t) eqn:Hh.
    - apply is_hpa_half_iff in Hh; subst t.
      rewrite AlphaBeta_copy_hpa, float_to_half_length; reflexivity.
    - unfold AlphaBeta_copy, AlphaBeta_tensile_type; rewrite Hh.
      rewrite (AlphaBeta_primary_copy_id t src Hs), Hs.
      pose proof (AlphaBeta_static_assert_holds t Hin) as H.
      unfold AlphaBeta_static_assert in H; apply N.eqb_eq in H; exact H. }
  unfold GetTensileInputs; simpl; split; [|apply Hc, Hb].
  destruct (prob_k prob =? 0); [|apply Hc, Ha].
  unfold memset; rewrite repeat_length; apply N2Nat.id.
Qed.

Lemma marshalled_scalar_sizes_witness :
  let inputs := GetTensileInputs hpa_half transposed_problem in
  List.length (in_alpha inputs) = 2%nat /\ List.length (in_beta inputs) = 2%nat.
Proof.
  pose proof (marshalled_scalar_sizes hpa_half transposed_problem) as H.
  assert (Hin : In hpa_half instantiated) by (simpl; auto 10).
  destruct (H Hin eq_refl eq_refl) as [H1 H2].
  split; apply Nat2N.inj; [rewrite H1 | rewrite H2]; reflexivity.
Defined.

(** ** The creation of the host *)

Lemma load_all_first_failure (sys : system) (l : list string) (p : process) :
  for_each (fun f => throw_if (loadCodeObjectFile sys f)) l p
  = (p, match first_load_failure sys l with
        | None => Ok tt
        | Some e => Throw e
        end).
Proof.
  induction l as [|f l IH]; simpl; [reflexivity|].
  unfold bind at 1, throw_if at 1.
  destruct (loadCodeObjectFile sys f) as [e|]; simpl; [reflexivity|exact IH].
Qed.

Lemma with_lines_nil (p : process) : with_lines p [] = p.
Proof. destruct p; unfold with_lines; simpl; rewrite app_nil_r; reflexivity. Qed.

(** The first call of [getTensileHost], case by case. *)
Lemma getTensileHost_first (sys : system) (p : process) :
  host p = None ->
  getTensileHost sys p
  = match GetCurrentDevice sys with
    | Throws e =>
        (write_cerr from_getTensileHost (init_failure_message e) p, Abort)
    | Returns hw =>
        match first_load_failure sys (glob_files sys) with
        | Some e =>
            (write_cerr from_getTensileHost (init_failure_message e) p, Abort)
        | None =>
            let p1 := with_lines p (glob_lines sys) in
            if TestPath sys (metadata_path sys)
            then match LoadLibraryFile sys (metadata_path sys) with
                 | Returns lib =>
                     let h := {| library := lib; hardware := hw;
                                 adapter := glob_files sys |} in
                     (set_host h p1, Ok h)
                 | Throws e =>
                     (write_cerr from_getTensileHost (init_failure_message e) p1,
                      Abort)
                 end
            else (write_cerr from_TensileHost
                    (cannot_read_error sys (metadata_path sys)) p1, Abort)
        end
    end.
Proof.
  intros Hh.
  unfold getTensileHost, TensileHost_ctor, glob_files, glob_lines.
  unfold bind at 1 2 3 4, gets, try_catch; rewrite Hh.
  unfold extern at 1.
  destruct (GetCurrentDevice sys) as [hw|[what|]]; [|reflexivity..].
  fold (metadata_path sys).
  destruct (glob sys (glob_pattern sys)) as [l| | | |] eqn:Hg.
  1: { unfold bind at 1 2. rewrite load_all_first_failure.
       destruct (first_load_failure sys l) as [[what|]|]; [reflexivity..|].
       rewrite with_lines_nil. unfold ret at 1.
       unfold_m; destruct (TestPath sys (metadata_path sys)); simpl;
         [destruct (LoadLibraryFile sys (metadata_path sys)) as [lib|[what|]]|];
         reflexivity. }
  all: unfold_m; simpl;
    destruct (TestPath sys (metadata_path sys)); simpl;
    [destruct (LoadLibraryFile sys (metadata_path sys)) as [lib|[what|]]|];
    reflexivity.
Qed.

(** The failure of the creation of the host by an exception: when the
    host is not there yet and the detection of the device, the loading of
    a code object file or the loading of the readable metadata file throws,
    [getTensileHost] ends the process, leaves the host absent, makes no
    call into the solution library, and the last line of the error stream
    is "Could not initialize Tensile host: " followed by [what()] of the
    exception, or by "Unknown exception thrown". *)
Theorem init_exception_ends_process (sys : system) (p : process) (e : exn) :
  host p = None ->
  ctor_exception sys = Some e ->
  let p' := fst (getTensileHost sys p) in
  snd (getTensileHost sys p) = Abort
  /\ host p' = None /\ calls p' = calls p /\ fired p' = fired p
  /\ (exists warnings,
        cerr p'
        = (cerr p ++ warnings
           ++ [ {| entry_origin := from_getTensileHost;
                   entry_msg := init_failure_message e |} ])%list
        /\ (warnings = [] \/ warnings = glob_lines sys))
  /\ snd (rocblas_initialize sys p) = Abort.
Proof.
  intros Hh He p'; subst p'.
  assert (Hi : snd (getTensileHost sys p) = Abort ->
               snd (rocblas_initialize sys p) = Abort).
  { unfold rocblas_initialize, bind.
    destruct (getTensileHost sys p) as [q [a|x|]]; simpl; congruence. }
  revert Hi; rewrite (getTensileHost_first sys p Hh).
  unfold ctor_exception in He.
  destruct (GetCurrentDevice sys) as [hw|e0].
  2: { injection He as ->; simpl; intros Hi.
       repeat split; auto; exists []; split; [reflexivity|left; reflexivity]. }
  unfold glob_files.
  destruct (glob sys (glob_pattern sys)) as [l| | | |] eqn:Hg;
    [destruct (first_load_failure sys l) as [e0|] eqn:Hf|..];
    try (injection He as ->; simpl; intros Hi;
         repeat split; auto; exists []; split; [reflexivity|left; reflexivity]).
  all: simpl in He |- *;
    destruct (TestPath sys (metadata_path sys)); [|discriminate];
    destruct (LoadLibraryFile sys (metadata_path sys)) as [lib|e0];
      [discriminate|]; injection He as ->; simpl; intros Hi;
    repeat split; auto; exists (glob_lines sys);
    (split; [rewrite app_assoc; reflexivity | right; reflexivity]).
Qed.

(** The creation of the host succeeds exactly when the device is found,
    every matched code object file loads, and the metadata file is readable
    and loads; a glob that matches nothing or fails is never in the way.
    The host then holds the loaded library, the device and the matched
    files, and the only line written is the warning about the glob, if
    any. *)
Theorem init_succeeds_iff (sys : system) (p : process) (h : TensileHost) :
  host p = None ->
  (snd (getTensileHost sys p) = Ok h
   <-> exists hw lib,
         GetCurrentDevice sys = Returns hw
         /\ first_load_failure sys (glob_files sys) = None
         /\ TestPath sys (metadata_path sys) = true
         /\ LoadLibraryFile sys (metadata_path sys) = Returns lib
         /\ h = {| library := lib; hardware := hw; adapter := glob_files sys |})
  /\ (snd (getTensileHost sys p) = Ok h ->
      fst (getTensileHost sys p)
      = {| cerr := (cerr p ++ glob_lines sys)%list; fired := fired p;
           host := Some h; calls := calls p |}).
Proof.
  intros Hh; rewrite (getTensileHost_first sys p Hh).
  destruct (GetCurrentDevice sys) as [hw|e0]; simpl.
  2: { split; [split; [discriminate|intros (hw & lib & H & _); discriminate]
              |discriminate]. }
  destruct (first_load_failure sys (glob_files sys)) as [e0|]; simpl.
  1: { split; [split; [discriminate|intros (hw' & lib & _ & H & _); discriminate]
              |discriminate]. }
  destruct (TestPath sys (metadata_path sys)); simpl.
  2: { split; [split; [discriminate|intros (hw' & lib & _ & _ & H & _); discriminate]
              |discriminate]. }
  destruct (LoadLibraryFile sys (metadata_path sys)) as [lib|e0]; simpl.
  2: { split; [split; [discriminate
                      |intros (hw' & lib & _ & _ & _ & H & _); discriminate]
              |discriminate]. }
  split; [split|].
  - intros H; injection H as <-; exists hw, lib; repeat split; reflexivity.
  - intros (hw' & lib' & H1 & _ & _ & H2 & ->).
    injection H1 as <-; injection H2 as <-; reflexivity.
  - intros H; injection H as <-; reflexivity.
Qed.

(** With ROCBLAS_TENSILE_LIBPATH set, the library path is its value: the
    location of librocblas.so and the directories tried by default play no
    part, and the only path tested for reading is that of the metadata
    file. *)
Theorem env_overrides_search (sys : system) (p : process) (env : string)
        (dl : option string) (dn : string -> string) (acc : string -> bool) :
  getenv sys "ROCBLAS_TENSILE_LIBPATH" = Some env ->
  acc (env ++ "/TensileLibrary.yaml") = access_R_OK sys (env ++ "/TensileLibrary.yaml") ->
  metadata_path sys = env ++ "/TensileLibrary.yaml"
  /\ glob_pattern sys = env ++ "/*" ++ processor_name sys ++ "*co"
  /\ getTensileHost (with_probes sys dl dn acc) p = getTensileHost sys p.
Proof.
  intros He Ha.
  assert (Hl : forall s, getenv s "ROCBLAS_TENSILE_LIBPATH" = Some env ->
                         library_path s (processor_name s) = env).
  { intros s H; unfold library_path; rewrite H; reflexivity. }
  assert (Hm : metadata_path sys = env ++ "/TensileLibrary.yaml").
  { unfold metadata_path; rewrite (Hl sys He); reflexivity. }
  assert (Hg : glob_pattern sys = env ++ "/*" ++ processor_name sys ++ "*co").
  { unfold glob_pattern; rewrite (Hl sys He); reflexivity. }
  split; [exact Hm|]; split; [exact Hg|].
  set (sys' := with_probes sys dl dn acc).
  assert (Hm' : metadata_path sys' = metadata_path sys).
  { unfold metadata_path; rewrite (Hl sys He), (Hl sys' He); reflexivity. }
  assert (Hg' : glob_pattern sys' = glob_pattern sys).
  { unfold glob_pattern; rewrite (Hl sys He), (Hl sys' He); reflexivity. }
  destruct (host p) as [h|] eqn:Hh.
  - rewrite !(getTensileHost_cached _ p h Hh); reflexivity.
  - rewrite !(getTensileHost_first _ p Hh).
    unfold glob_files, glob_lines, cannot_read_error, TestPath.
    rewrite Hm', Hg'.
    change (GetCurrentDevice sys') with (GetCurrentDevice sys).
    change (glob sys') with (glob sys).
    change (LoadLibraryFile sys') with (LoadLibraryFile sys).
    change (strerror_errno sys') with (strerror_errno sys).
    change (access_R_OK sys') with acc.
    assert (Hf : forall l, first_load_failure sys' l = first_load_failure sys l).
    { induction l as [|f l IH]; simpl; [reflexivity|rewrite IH; reflexivity]. }
    rewrite Hm, Ha.
    destruct (GetCurrentDevice sys); [|reflexivity].
    destruct (glob sys (glob_pattern sys)); try rewrite Hf; reflexivity.
Qed.

(** The three theorems on the creation of the host at sample
    installations: no device, no code object file, and a library path from
    the environment. *)
Lemma init_exception_ends_process_witness :
  snd (getTensileHost no_device_installation start) = Abort
  /\ map (fun e => msg_text (entry_msg e))
         (cerr (fst (getTensileHost no_device_installation start)))
     = [ nl ++ "Could not initialize Tensile host: no device" ].
Proof.
  destruct (init_exception_ends_process no_device_installation start
              (std_exception "no device") eq_refl eq_refl)
    as (H & _ & _ & _ & _).
  split; [exact H|reflexivity].
Defined.

Lemma init_succeeds_iff_witness :
  snd (getTensileHost no_kernels_installation start)
  = Ok {| library := 1; hardware := 0; adapter := [] |}.
Proof.
  apply (proj1 (init_succeeds_iff no_kernels_installation start _ eq_refl)).
  exists 0, 1; repeat split.
Defined.

Lemma env_overrides_search_witness :
  metadata_path env_installation = "/data/tensile/TensileLibrary.yaml"
  /\ glob_pattern env_installation = "/data/tensile/*gfx906*co".
Proof.
  destruct (env_overrides_search env_installation start "/data/tensile"
              None (fun s => s) (fun _ => true) eq_refl eq_refl)
    as (H1 & H2 & _).
  split; [exact H1 | exact H2].
Defined.

(** ** Calls on a process that has its host *)

Lemma record_calls_fields (l : list tensile_call) (p : process) :
  cerr (record_calls l p) = cerr p
  /\ fired (record_calls l p) = fired p
  /\ host (record_calls l p) = host p
  /\ calls (record_calls l p) = (calls p ++ l)%list.
Proof.
  revert p; induction l as [|c l IH]; intros p; simpl.
  - rewrite app_nil_r; auto.
  - destruct (IH (record_call c p)) as (H1 & H2 & H3 & H4).
    unfold record_calls in *; simpl; rewrite H1, H2, H3, H4; simpl.
    rewrite <- app_assoc; auto.
Qed.

Lemma static_once_fields (l : latch) (m : message) (p : process) :
  host (static_once l m p) = host p
  /\ calls (static_once l m p) = calls p
  /\ init_lines (cerr (static_once l m p)) = init_lines (cerr p)
  /\ (exists new, cerr (static_once l m p) = (cerr p ++ new)%list
                  /\ fired (static_once l m p)
                     = (once_origins new ++ fired p)%list
                  /\ new = if existsb (latch_eqb l) (fired p) then []
                           else [ {| entry_origin := from_once l;
                                     entry_msg := m |} ]).
Proof.
  unfold static_once.
  destruct (existsb (latch_eqb l) (fired p)); simpl.
  - repeat split; exists []; rewrite app_nil_r; auto.
  - repeat split.
    + unfold init_lines; rewrite filter_app; simpl; apply app_nil_r.
    + eexists; repeat split.
Qed.

Section MoreRunFacts.

Variable beta_category : Type.
Variable value_category : rocblas_type -> list byte -> beta_category.

Local Abbreviation run := (runContractionProblem value_category).

(** A call on a process that has its host, case by case. *)
Lemma run_cached sys w t prob p h :
  host p = Some h ->
  run sys w t prob p
  = let p1 := record_calls (made_calls value_category w h t prob) p in
    match raised value_category w h t prob with
    | Some e =>
        (caught e (found value_category w h t prob) t prob p1,
         Ok rocblas_status_internal_error)
    | None =>
        match found value_category w h t prob with
        | Some _ => (p1, Ok rocblas_status_success)
        | None =>
            (static_once (t, once_no_solution) (no_solution_message t prob) p1,
             Ok rocblas_status_not_implemented)
        end
    end.
Proof.
  intros Hh.
  unfold runContractionProblem, bind at 1.
  rewrite (getTensileHost_cached sys p h Hh).
  unfold run_body, raised, found, made_calls, record_calls, caught.
  unfold_m; cbv zeta.
  destruct (ContractionProblem_ctor w _) as [[what|]|]; simpl; [reflexivity..|].
  destruct (findBestSolution w _ _ _) as [[s|]|[what|]]; simpl;
    [|reflexivity..].
  destruct (solve w s _ _ _) as [ks|[what|]]; simpl; [|reflexivity..].
  destruct (launchKernels w _) as [[what|]|]; simpl; reflexivity.
Qed.

(** A successful call: when the problem is built, a solution is found, the
    problem is solved and the kernels are launched without exception, the
    call returns success, writes nothing to the error stream, fires no
    latch, and makes three calls into Tensile: the search, the solve with
    the solution found, and the launch of the kernels of the solve, with
    the stream and the two events if the handle has both events and plain
    otherwise. *)
Theorem successful_call sys w t prob p h s ks :
  host p = Some h ->
  let P := ConstructTensileProblem value_category t prob in
  let l := launch_request (handle prob) ks in
  ContractionProblem_ctor w P = None ->
  findBestSolution w (library h) P (hardware h) = Returns (Some s) ->
  solve w s P (GetTensileInputs t prob) (hardware h) = Returns ks ->
  launchKernels w l = None ->
  run sys w t prob p
  = ({| cerr := cerr p; fired := fired p; host := host p;
        calls := (calls p ++ [call_findBestSolution; call_solve s;
                              call_launchKernels l])%list |},
     Ok rocblas_status_success)
  /\ launch_kernels l = ks
  /\ (launch_timing l = None
      <-> startEvent (handle prob) = None \/ stopEvent (handle prob) = None)
  /\ (forall start stop,
        startEvent (handle prob) = Some start ->
        stopEvent (handle prob) = Some stop ->
        launch_timing l = Some (rocblas_stream (handle prob), start, stop)).
Proof.
  intros Hh P l Hc Hf Hs Hl; subst P l.
  split.
  - rewrite (run_cached sys w t prob p h Hh).
    unfold raised, found, made_calls; rewrite Hc, Hf, Hs, Hl; simpl.
    unfold record_calls, record_call; simpl; rewrite <- !app_assoc; reflexivity.
  - unfold launch_request.
    destruct (startEvent (handle prob)), (stopEvent (handle prob)); simpl;
      repeat split; auto; try discriminate;
      try (intros [H|H]; discriminate);
      try (intros ? ? H1 H2; congruence).
Qed.

(** The line about a missing solution: when the problem is built and the
    search returns no solution, the call returns not-implemented; if no
    earlier call of this instantiation missed, it adds one line, "Error: No
    Tensile solution found for" this problem, without end of line, and
    fires the latch; otherwise it leaves the error stream as it is, even
    though the problem may be another one. *)
Theorem missing_solution_line sys w t prob p h :
  host p = Some h ->
  let P := ConstructTensileProblem value_category t prob in
  ContractionProblem_ctor w P = None ->
  findBestSolution w (library h) P (hardware h) = Returns None ->
  let p' := fst (run sys w t prob p) in
  snd (run sys w t prob p) = Ok rocblas_status_not_implemented
  /\ (~ In (t, once_no_solution) (fired p) ->
      cerr p'
      = (cerr p ++ [ {| entry_origin := from_once (t, once_no_solution);
                        entry_msg :=
                          {| msg_text := "Error: No Tensile solution found for ";
                             msg_prob := Some (t, prob);
                             msg_endl := false |} |} ])%list
      /\ fired p' = (t, once_no_solution) :: fired p)
  /\ (In (t, once_no_solution) (fired p) ->
      cerr p' = cerr p /\ fired p' = fired p).
Proof.
  intros Hh P Hc Hf p'; subst P p'.
  rewrite (run_cached sys w t prob p h Hh).
  unfold raised, found, made_calls; rewrite Hc, Hf; simpl.
  split; [reflexivity|].
  unfold static_once; simpl.
  destruct (existsb (latch_eqb (t, once_no_solution)) (fired p)) eqn:E; simpl.
  - apply fired_existsb in E; split; [intros H; contradiction|auto].
  - split; [auto|].
    intros H; apply fired_existsb in H; congruence.
Qed.

(** The line about an exception: when Tensile throws a [std::exception]
    during a call and no earlier call of this instantiation caught one, the
    call adds one line, which begins "Error: No Tensile solution found,
    but" if the exception came before the search returned a solution, and
    "Error: Tensile solution found, but" if it came from the solve or the
    launch, and goes on with [what()], "exception thown for" and the
    problem; the calls made into Tensile are those up to the one that
    threw. *)
Theorem exception_line sys w t prob p h what :
  host p = Some h ->
  raised value_category w h t prob = Some (std_exception what) ->
  ~ In (t, once_std_exception) (fired p) ->
  let p' := fst (run sys w t prob p) in
  let P := ConstructTensileProblem value_category t prob in
  let found_one :=
    match ContractionProblem_ctor w P with
    | Some _ => false
    | None =>
        match findBestSolution w (library h) P (hardware h) with
        | Returns (Some _) => true
        | _ => false
        end
    end in
  cerr p'
  = (cerr p
     ++ [ {| entry_origin := from_once (t, once_std_exception);
             entry_msg :=
               {| msg_text :=
                    (if found_one then "Error: Tensile solution found, but "
                     else "Error: No Tensile solution found, but ")
                    ++ what ++ " exception thown for ";
                  msg_prob := Some (t, prob);
                  msg_endl := true |} |} ])%list
  /\ fired p' = (t, once_std_exception) :: fired p
  /\ calls p' = (calls p ++ made_calls value_category w h t prob)%list
  /\ host p' = Some h.
Proof.
  intros Hh Hr Hn p' P found_one; subst p' P found_one.
  rewrite (run_cached sys w t prob p h Hh), Hr; simpl.
  destruct (record_calls_fields (made_calls value_category w h t prob) p)
    as (H1 & H2 & H3 & H4).
  unfold static_once; rewrite H2.
  destruct (existsb (latch_eqb (t, once_std_exception)) (fired p)) eqn:E.
  { apply fired_existsb in E; contradiction. }
  simpl; rewrite H1, H3, H4.
  repeat split; auto.
  unfold found, std_exception_message.
  destruct (ContractionProblem_ctor w _); [reflexivity|].
  destruct (findBestSolution w _ _ _) as [[s|]|]; reflexivity.
Qed.

(** What the status tells the caller: on a process that has its host,
    success is returned only after the search, the solve and the launch
    were all made and none threw, and then nothing was written to the error
    stream; not-implemented is returned only after the search and nothing
    else, so nothing was solved or launched. *)
Theorem status_tells_the_calls sys w t prob p h :
  host p = Some h ->
  let out := run sys w t prob p in
  let P := ConstructTensileProblem value_category t prob in
  (snd out = Ok rocblas_status_success ->
   exists s ks,
     findBestSolution w (library h) P (hardware h) = Returns (Some s)
     /\ solve w s P (GetTensileInputs t prob) (hardware h) = Returns ks
     /\ launchKernels w (launch_request (handle prob) ks) = None
     /\ calls (fst out)
        = (calls p ++ [ call_findBestSolution; call_solve s;
                        call_launchKernels (launch_request (handle prob) ks) ])%list
     /\ cerr (fst out) = cerr p)
  /\ (snd out = Ok rocblas_status_not_implemented ->
      findBestSolution w (library h) P (hardware h) = Returns None
      /\ calls (fst out) = (calls p ++ [call_findBestSolution])%list).
Proof.
  intros Hh out P; subst out P.
  rewrite (run_cached sys w t prob p h Hh).
  unfold raised, found, made_calls, record_calls.
  destruct (ContractionProblem_ctor w _) as [e|]; simpl.
  { split; intros H; discriminate. }
  destruct (findBestSolution w _ _ _) as [[s|]|e] eqn:Ef; simpl.
  - destruct (solve w s _ _ _) as [ks|e] eqn:Es; simpl;
      [|split; intros H; discriminate].
    destruct (launchKernels w _) as [e|] eqn:El; simpl;
      [split; intros H; discriminate|].
    split; [|intros H; discriminate].
    intros _; exists s, ks.
    split; [reflexivity|]; split; [exact Es|]; split; [exact El|].
    split; [|reflexivity].
    rewrite <- !app_assoc; reflexivity.
  - split; [intros H; discriminate|].
    intros _; split; [reflexivity|].
    destruct (static_once_fields (t, once_no_solution)
                (no_solution_message t prob)
                (record_call call_findBestSolution p)) as (_ & -> & _).
    reflexivity.
  - split; intros H; discriminate.
Qed.

(** What a call on a process that has its host leaves behind. *)
Lemma run_cached_summary sys w t prob p h :
  host p = Some h ->
  let p' := fst (run sys w t prob p) in
  host p' = Some h
  /\ init_lines (cerr p') = init_lines (cerr p)
  /\ (exists s, snd (run sys w t prob p) = Ok s)
  /\ (exists new, cerr p' = (cerr p ++ new)%list
                  /\ (List.length new <= 1)%nat
                  /\ (snd (run sys w t prob p) = Ok rocblas_status_success ->
                      new = [])
                  /\ fired p' = (once_origins new ++ fired p)%list
                  /\ forall l, In l (once_origins new) -> fst l = t)
  /\ calls p' = (calls p ++ made_calls value_category w h t prob)%list.
Proof.
  intros Hh p'; subst p'.
  rewrite (run_cached sys w t prob p h Hh).
  destruct (record_calls_fields (made_calls value_category w h t prob) p)
    as (H1 & H2 & H3 & H4).
  set (p1 := record_calls (made_calls value_category w h t prob) p) in *.
  assert (Hso : forall l m, fst l = t ->
            host (static_once l m p1) = Some h
            /\ init_lines (cerr (static_once l m p1)) = init_lines (cerr p)
            /\ (exists new, cerr (static_once l m p1) = (cerr p ++ new)%list
                  /\ (List.length new <= 1)%nat
                  /\ fired (static_once l m p1) = (once_origins new ++ fired p)%list
                  /\ forall l', In l' (once_origins new) -> fst l' = t)
            /\ calls (static_once l m p1)
               = (calls p ++ made_calls value_category w h t prob)%list).
  { intros l m Hl.
    destruct (static_once_fields l m p1) as (F1 & F2 & F3 & new & F4 & F5 & F6).
    rewrite F1, F2, F3, F4, F5, H1, H2, H3, H4.
    repeat split; auto.
    exists new; repeat split; auto.
    - subst new; destruct (existsb _ _); simpl; auto.
    - subst new; destruct (existsb _ _); simpl; intros l' H;
        [contradiction | destruct H as [<-|[]]; exact Hl]. }
  destruct (raised value_category w h t prob) as [e|].
  - cbv zeta; unfold caught.
    destruct e as [what|];
      match goal with
      | |- context [static_once ?l ?m p1] =>
          destruct (Hso l m eq_refl) as (G1 & G2 & (new & G3 & G4 & G5 & G6) & G7)
      end;
      simpl fst; simpl snd; rewrite G1, G2, G7;
      (repeat split; auto; [eexists; reflexivity|]);
      exists new; repeat split; auto; discriminate.
  - cbv zeta; destruct (found value_category w h t prob) as [s|].
    + simpl fst; simpl snd; rewrite H1, H2, H3, H4.
      repeat split; auto; [eexists; reflexivity|].
      exists []; rewrite app_nil_r; repeat split; simpl; auto.
      intros l [].
    + match goal with
      | |- context [static_once ?l ?m p1] =>
          destruct (Hso l m eq_refl) as (G1 & G2 & (new & G3 & G4 & G5 & G6) & G7)
      end.
      simpl fst; simpl snd; rewrite G1, G2, G7.
      repeat split; auto; [eexists; reflexivity|].
      exists new; repeat split; auto; discriminate.
Qed.

(** The host is created once: after [getTensileHost] has returned the
    host, every later [getTensileHost] returns that host and leaves the
    process as it is, whatever the environment has become; and whatever
    requests follow, every one of them returns a status, the host stays
    the same, the lines about the creation of the host stay as they were,
    and at most one line per request is added to the error stream. *)
Theorem host_created_once sys sys' rs p p1 h :
  getTensileHost sys p = (p1, Ok h) ->
  getTensileHost sys' p1 = (p1, Ok h)
  /\ let out := serve value_category sys' rs p1 in
     host (fst out) = Some h
     /\ init_lines (cerr (fst out)) = init_lines (cerr p1)
     /\ (exists new, cerr (fst out) = (cerr p1 ++ new)%list
                     /\ (List.length new <= List.length rs)%nat)
     /\ List.length (snd out) = List.length rs
     /\ Forall (fun r => exists s, r = Ok s) (snd out).
Proof.
  intros E.
  assert (Hh : host p1 = Some h).
  { pose proof (getTensileHost_outcome sys p) as (Ho & _); cbv zeta in Ho.
    rewrite E in Ho; exact Ho. }
  split; [apply getTensileHost_cached, Hh|].
  clear E p sys. revert p1 Hh.
  induction rs as [|r rs IH]; intros p Hh; simpl.
  - repeat split; auto; exists []; rewrite app_nil_r; auto.
  - pose proof (run_cached_summary sys' (req_world r) (req_t r) (req_prob r) p h Hh)
      as (G1 & G2 & (s & G3) & (new & G4 & G5 & _) & _).
    cbv zeta in *.
    destruct (runContractionProblem value_category sys' (req_world r) (req_t r)
                (req_prob r) p) as [q res]; simpl in *; subst res.
    specialize (IH q G1); cbv zeta in IH.
    destruct (serve value_category sys' rs q) as [q' outs]; simpl in *.
    destruct IH as (I1 & I2 & (new' & I3 & I4) & I5 & I6).
    repeat split; auto; try congruence.
    + exists (new ++ new')%list; rewrite I3, G4, <- app_assoc; split; auto.
      rewrite length_app; lia.
    + constructor; [exists s; reflexivity|exact I6].
Qed.

End MoreRunFacts.

(** ** A bound on the error stream *)

Lemma log_length_split (log : list log_entry) :
  List.length log
  = (List.length (once_origins log) + List.length (init_lines log))%nat.
Proof.
  induction log as [|e log IH]; simpl; [reflexivity|].
  destruct (entry_origin e); simpl; rewrite IH; lia.
Qed.

Lemma in_all_latches (l : latch) :
  In (fst l) instantiated -> In l all_latches.
Proof.
  intros H; unfold all_latches; apply in_flat_map.
  exists (fst l); split; [exact H|].
  destruct l as [t []]; simpl; auto.
Qed.

Lemma glob_lines_init (sys : system) :
  once_origins (glob_lines sys) = []
  /\ (List.length (glob_lines sys) <= 1)%nat.
Proof. unfold glob_lines; destruct (glob sys (glob_pattern sys)); simpl; auto. Qed.

Section Bound.

Variable beta_category : Type.
Variable value_category : rocblas_type -> list byte -> beta_category.

Lemma run_after_creation sys w t prob p p1 h :
  getTensileHost sys p = (p1, Ok h) ->
  runContractionProblem value_category sys w t prob p
  = runContractionProblem value_category sys w t prob p1.
Proof.
  intros E.
  assert (Hh : host p1 = Some h).
  { pose proof (getTensileHost_outcome sys p) as (Ho & _); cbv zeta in Ho.
    rewrite E in Ho; exact Ho. }
  unfold runContractionProblem, bind.
  rewrite E, (getTensileHost_cached sys p1 h Hh); reflexivity.
Qed.

Lemma serve_cached_lines sys rs p h :
  host p = Some h ->
  Forall (fun r => In (req_t r) instantiated) rs ->
  let q := fst (serve value_category sys rs p) in
  init_lines (cerr q) = init_lines (cerr p)
  /\ forall l, In l (once_origins (cerr q)) ->
               In l (once_origins (cerr p)) \/ In (fst l) instantiated.
Proof.
  revert p; induction rs as [|r rs IH]; intros p Hh Hrs; simpl.
  - split; auto.
  - inversion Hrs as [|r' rs' Hr Hrs']; subst.
    pose proof (run_cached_summary _ value_category sys (req_world r) (req_t r)
                  (req_prob r) p h Hh)
      as (G1 & G2 & (s & G3) & (new & G4 & _ & _ & _ & G5) & _).
    cbv zeta in *.
    destruct (runContractionProblem value_category sys (req_world r) (req_t r)
                (req_prob r) p) as [q res]; simpl in *; subst res.
    specialize (IH q G1 Hrs'); cbv zeta in IH.
    destruct (serve value_category sys rs q) as [q' outs]; simpl in *.
    destruct IH as [I1 I2]; split; [congruence|].
    intros l Hl; destruct (I2 l Hl) as [H|H]; [|right; exact H].
    rewrite G4, once_origins_app in H; apply in_app_or in H as [H|H];
      [left; exact H|right; rewrite (G5 l H); exact Hr].
Qed.

(** However many requests of the instantiations of the file a process
    serves, its error stream never holds more than 25 lines: at most one
    from each of the 24 latches and at most two about the creation of the
    host. *)
Theorem error_stream_is_bounded sys rs :
  Forall (fun r => In (req_t r) instantiated) rs ->
  (List.length (cerr (fst (serve value_category sys rs start))) <= 25)%nat.
Proof.
  intros Hrs.
  destruct rs as [|r rs]; [simpl; lia|].
  pose proof (getTensileHost_first sys start eq_refl) as E.
  pose proof (glob_lines_init sys) as [Go Gl].
  destruct (getTensileHost sys start) as [p1 [h|e|]] eqn:Eg.
  - (* the host is created: the other lines come from latches *)
    assert (Hh : host p1 = Some h).
    { pose proof (getTensileHost_outcome sys start) as (Ho & _);
        cbv zeta in Ho; rewrite Eg in Ho; exact Ho. }
    assert (Hc : cerr p1 = glob_lines sys).
    { destruct (init_succeeds_iff sys start h eq_refl) as [_ Hs].
      rewrite Eg in Hs; simpl in Hs; rewrite (Hs eq_refl); reflexivity. }
    assert (Es : serve value_category sys (r :: rs) start
                 = serve value_category sys (r :: rs) p1).
    { simpl; rewrite (run_after_creation sys _ _ _ start p1 h Eg); reflexivity. }
    pose proof (latched_serve _ value_category sys (r :: rs) start latched_start)
      as [Hn _].
    rewrite Es in Hn |- *.
    pose proof (serve_cached_lines sys (r :: rs) p1 h Hh Hrs) as [Hi Ho].
    cbv zeta in Hi, Ho.
    set (q := fst (serve value_category sys (r :: rs) p1)) in *.
    rewrite log_length_split, Hi, Hc.
    assert (Hinit : (List.length (init_lines (glob_lines sys)) <= 1)%nat).
    { unfold init_lines.
      etransitivity; [apply filter_length_le|exact Gl]. }
    assert (Honce : (List.length (once_origins (cerr q)) <= 24)%nat).
    { change 24%nat with (List.length all_latches).
      apply NoDup_incl_length; [exact Hn|].
      intros l Hl; destruct (Ho l Hl) as [H|H];
        [rewrite Hc, Go in H; contradiction | apply in_all_latches, H]. }
    lia.
  - pose proof (getTensileHost_outcome sys start) as (Ho & _);
      cbv zeta in Ho; rewrite Eg in Ho; contradiction.
  - (* the process ends in the first call *)
    assert (Es : fst (serve value_category sys (r :: rs) start) = p1).
    { simpl. rewrite run_without_host by (rewrite Eg; reflexivity).
      rewrite Eg; reflexivity. }
    rewrite Es.
    destruct (GetCurrentDevice sys) as [hw|e0];
      [destruct (first_load_failure sys (glob_files sys)) as [e0|];
       [|cbv zeta in E; destruct (TestPath sys (metadata_path sys));
         [destruct (LoadLibraryFile sys (metadata_path sys)) as [lib|e0]|]]|];
      try discriminate; injection E as ->; simpl;
      rewrite ?length_app; simpl; lia.
Qed.

End Bound.

(** [successful_call], [missing_solution_line], [exception_line],
    [host_created_once] and [error_stream_is_bounded] at sample calls on a
    sound installation. *)
Lemma successful_call_witness :
  snd (runContractionProblem no_category good_installation solving_world
         (non_ex rocblas_float) transposed_problem
         (fst (getTensileHost good_installation start)))
  = Ok rocblas_status_success.
Proof.
  pose proof (successful_call unit no_category good_installation solving_world
                (non_ex rocblas_float) transposed_problem
                (fst (getTensileHost good_installation start))
                _ 7 [1; 2] eq_refl eq_refl eq_refl eq_refl eq_refl) as [H _].
  rewrite H; reflexivity.
Defined.

Lemma missing_solution_line_witness :
  snd (runContractionProblem no_category good_installation no_solution_world
         (non_ex rocblas_float) transposed_problem
         (fst (getTensileHost good_installation start)))
  = Ok rocblas_status_not_implemented.
Proof.
  exact (proj1 (missing_solution_line unit no_category good_installation
                  no_solution_world (non_ex rocblas_float) transposed_problem
                  (fst (getTensileHost good_installation start))
                  _ eq_refl eq_refl eq_refl)).
Defined.

Lemma exception_line_witness :
  List.length
    (cerr (fst (runContractionProblem no_category good_installation
                  (throwing_world (std_exception "bad_alloc"))
                  (non_ex rocblas_float) transposed_problem
                  (fst (getTensileHost good_installation start)))))
  = 1%nat.
Proof.
  assert (Hn : ~ In (non_ex rocblas_float, once_std_exception)
                    (fired (fst (getTensileHost good_installation start)))).
  { simpl; intros []. }
  pose proof (exception_line unit no_category good_installation
                (throwing_world (std_exception "bad_alloc"))
                (non_ex rocblas_float) transposed_problem
                (fst (getTensileHost good_installation start))
                _ "bad_alloc" eq_refl eq_refl Hn) as [H _].
  rewrite H; reflexivity.
Defined.

Lemma status_tells_the_calls_witness :
  calls (fst (runContractionProblem no_category good_installation
                no_solution_world (non_ex rocblas_float) transposed_problem
                (fst (getTensileHost good_installation start))))
  = [call_findBestSolution].
Proof.
  destruct (status_tells_the_calls unit no_category good_installation
              no_solution_world (non_ex rocblas_float) transposed_problem
              (fst (getTensileHost good_installation start)) _ eq_refl)
    as [_ H].
  destruct (H eq_refl) as [_ Hc]; exact Hc.
Defined.

Lemma host_created_once_witness :
  host (fst (serve no_category no_metadata_installation
               [ request_in no_solution_world; request_in solving_world ]
               (fst (getTensileHost good_installation start))))
  = host (fst (getTensileHost good_installation start)).
Proof.
  pose proof (host_created_once unit no_category good_installation
                no_metadata_installation
                [ request_in no_solution_world; request_in solving_world ]
                start (fst (getTensileHost good_installation start)) _ eq_refl)
    as (_ & H & _).
  exact H.
Defined.

Lemma error_stream_is_bounded_witness :
  (List.length
     (cerr (fst (serve no_category no_kernels_installation
                   [ request_in no_solution_world;
                     request_in (throwing_world unknown_exception) ]
                   start))) <= 25)%nat.
Proof.
  apply (error_stream_is_bounded unit no_category).
  apply Forall_forall; intros r [<-|[<-|[]]]; simpl; auto 10.
Defined.

(** ** More of rocblas_hbmv_batched *)

Section MoreHbmvFacts.

Import Hbmv.

Variable RETURN_ZERO_DEVICE_MEMORY_SIZE_IF_QUERIED :
  _rocblas_handle -> option rocblas_status.
Variable rocblas_layer_mode_log_trace : N.
Variable rocblas_layer_mode_log_bench : N.
Variable rocblas_layer_mode_log_profile : N.
Variable rocblas_hbmv_template :
  rocblas_type -> template_args -> extern_result rocblas_status.
Variable exception_to_rocblas_status : exn -> rocblas_status.

Local Open Scope Z_scope.

(** The null-pointer check: with a handle the macro lets through, valid
    sizes, n > 0 and batch_count > 0, the call returns invalid-pointer as
    soon as one of A, x, y, alpha, beta is null, whatever the kernel
    template would do. *)
Theorem hbmv_null_pointer
        entry h uplo n k alpha A lda x incx beta y incy batch_count :
  entry = rocblas_chbmv_batched RETURN_ZERO_DEVICE_MEMORY_SIZE_IF_QUERIED
            rocblas_layer_mode_log_trace rocblas_layer_mode_log_bench
            rocblas_layer_mode_log_profile rocblas_hbmv_template
            exception_to_rocblas_status
  \/ entry = rocblas_zhbmv_batched RETURN_ZERO_DEVICE_MEMORY_SIZE_IF_QUERIED
               rocblas_layer_mode_log_trace rocblas_layer_mode_log_bench
               rocblas_layer_mode_log_profile rocblas_hbmv_template
               exception_to_rocblas_status ->
  RETURN_ZERO_DEVICE_MEMORY_SIZE_IF_QUERIED h = None ->
  0 < n -> 0 <= k -> k < lda -> incx <> 0 -> incy <> 0 -> 0 < batch_count ->
  A = 0%N \/ x = 0%N \/ y = 0%N \/ alpha = 0%N \/ beta = 0%N ->
  snd (entry (Some h) uplo n k alpha A lda x incx beta y incy batch_count)
  = Ok rocblas_status_invalid_pointer.
Proof.
  intros He Hq Hn Hk Hl Hx Hy Hb Hp.
  assert (Hs : (n <? 0) || (k <? 0) || (lda <=? k) || (incx =? 0)
               || (incy =? 0) || (batch_count <? 0) = false).
  { rewrite !orb_false_iff; repeat split;
      first [apply Z.ltb_ge | apply Z.leb_gt | apply Z.eqb_neq]; lia. }
  assert (Hz : (n =? 0) || (batch_count =? 0) = false).
  { rewrite orb_false_iff; split; apply Z.eqb_neq; lia. }
  assert (Hnull : is_null A || is_null x || is_null y || is_null alpha
                  || is_null beta = true).
  { unfold is_null; rewrite !orb_true_iff, !N.eqb_eq; tauto. }
  destruct He; subst entry;
    unfold rocblas_chbmv_batched, rocblas_zhbmv_batched;
    apply (c_wrapper_Ok exception_to_rocblas_status);
    rewrite (impl_past_the_macro RETURN_ZERO_DEVICE_MEMORY_SIZE_IF_QUERIED)
      by exact Hq;
    rewrite Hs, Hz, Hnull; reflexivity.
Qed.

(** The kernel: with a handle the macro lets through, valid sizes, n > 0,
    batch_count > 0 and no null pointer, the entry point for T calls the
    kernel template for T with the arguments as they came and all offsets
    and strides 0, and returns its status, or the status
    [exception_to_rocblas_status] gives for what it throws.  Whatever the
    arguments, no exception leaves an entry point. *)
Theorem hbmv_calls_the_kernel
        T entry h uplo n k alpha A lda x incx beta y incy batch_count :
  (T, entry)
  = (rocblas_float_complex,
     rocblas_chbmv_batched RETURN_ZERO_DEVICE_MEMORY_SIZE_IF_QUERIED
       rocblas_layer_mode_log_trace rocblas_layer_mode_log_bench
       rocblas_layer_mode_log_profile rocblas_hbmv_template
       exception_to_rocblas_status)
  \/ (T, entry)
     = (rocblas_double_complex,
        rocblas_zhbmv_batched RETURN_ZERO_DEVICE_MEMORY_SIZE_IF_QUERIED
          rocblas_layer_mode_log_trace rocblas_layer_mode_log_bench
          rocblas_layer_mode_log_profile rocblas_hbmv_template
          exception_to_rocblas_status) ->
  (RETURN_ZERO_DEVICE_MEMORY_SIZE_IF_QUERIED h = None ->
   0 < n -> 0 <= k -> k < lda -> incx <> 0 -> incy <> 0 -> 0 < batch_count ->
   A <> 0%N -> x <> 0%N -> y <> 0%N -> alpha <> 0%N -> beta <> 0%N ->
   snd (entry (Some h) uplo n k alpha A lda x incx beta y incy batch_count)
   = match rocblas_hbmv_template T
             {| ta_handle := h; ta_uplo := uplo; ta_n := n; ta_k := k;
                ta_alpha := alpha;
                ta_A := A; ta_offseta := 0; ta_lda := lda; ta_strideA := 0;
                ta_x := x; ta_offsetx := 0; ta_incx := incx; ta_stridex := 0;
                ta_beta := beta;
                ta_y := y; ta_offsety := 0; ta_incy := incy; ta_stridey := 0;
                ta_batch_count := batch_count |}
     with
     | Returns s => Ok s
     | Throws e => Ok (exception_to_rocblas_status e)
     end)
  /\ (forall handle,
        exists s,
          snd (entry handle uplo n k alpha A lda x incx beta y incy batch_count)
          = Ok s).
Proof.
  intros He; split.
  - intros Hq Hn Hk Hl Hx Hy Hb HA Hxp Hyp Hal Hbe.
    assert (Hs : (n <? 0) || (k <? 0) || (lda <=? k) || (incx =? 0)
                 || (incy =? 0) || (batch_count <? 0) = false).
    { rewrite !orb_false_iff; repeat split;
        first [apply Z.ltb_ge | apply Z.leb_gt | apply Z.eqb_neq]; lia. }
    assert (Hz : (n =? 0) || (batch_count =? 0) = false).
    { rewrite orb_false_iff; split; apply Z.eqb_neq; lia. }
    assert (Hnull : is_null A || is_null x || is_null y || is_null alpha
                    || is_null beta = false).
    { unfold is_null; rewrite !orb_false_iff; repeat split;
        apply N.eqb_neq; assumption. }
    destruct He as [He|He]; injection He as -> ->;
      unfold rocblas_chbmv_batched, rocblas_zhbmv_batched, rocblas_hbmv_batched_impl;
      rewrite Hq, Hs, Hz, Hnull; simpl;
      destruct (rocblas_hbmv_template _ _); reflexivity.
  - intros handle.
    destruct He as [He|He]; injection He as -> ->;
      unfold rocblas_chbmv_batched, rocblas_zhbmv_batched, rocblas_hbmv_batched_impl;
      (destruct handle as [h'|]; [|eexists; reflexivity]);
      (destruct (RETURN_ZERO_DEVICE_MEMORY_SIZE_IF_QUERIED h');
       [eexists; reflexivity|]);
      simpl;
      repeat match goal with
             | |- context [if ?b then _ else _] =>
                 lazymatch b with
                 | layer_has _ _ => fail
                 | _ => destruct b
                 end
             end;
      try (eexists; reflexivity);
      destruct (rocblas_hbmv_template _ _); eexists; reflexivity.
Qed.

(** Logging comes before the argument checks and reports the arguments as
    they were passed, valid or not.  With a handle the macro lets through:
    the calls made are [log_trace], [log_bench] and [log_profile] in this
    order, at most once each; each is given the handle and the six sizes
    n, k, lda, incx, incy, batch_count, in this order; pointers as they
    are go to [log_trace] only: A, x and y in host pointer mode, where
    alpha and beta go through [log_trace_scalar_value], and alpha, A, x,
    beta and y in device pointer mode; [log_trace] is called exactly when
    the trace bit is on, [log_profile] exactly when the profile bit is on,
    and [log_bench] exactly when the bench bit is on in host pointer
    mode. *)
Theorem hbmv_logging_precedes_checks
        entry h uplo n k alpha A lda x incx beta y incy batch_count :
  entry = rocblas_chbmv_batched RETURN_ZERO_DEVICE_MEMORY_SIZE_IF_QUERIED
            rocblas_layer_mode_log_trace rocblas_layer_mode_log_bench
            rocblas_layer_mode_log_profile rocblas_hbmv_template
            exception_to_rocblas_status
  \/ entry = rocblas_zhbmv_batched RETURN_ZERO_DEVICE_MEMORY_SIZE_IF_QUERIED
               rocblas_layer_mode_log_trace rocblas_layer_mode_log_bench
               rocblas_layer_mode_log_profile rocblas_hbmv_template
               exception_to_rocblas_status ->
  RETURN_ZERO_DEVICE_MEMORY_SIZE_IF_QUERIED h = None ->
  let logged :=
    fst (entry (Some h) uplo n k alpha A lda x incx beta y incy batch_count) in
  StronglySorted (fun c c' => (log_rank c < log_rank c')%nat) logged
  /\ (forall c, In c logged ->
        log_handle c = h
        /\ sizes_logged c = [n; k; lda; incx; incy; batch_count]
        /\ pointers_logged c
           = match log_rank c, pointer_mode h with
             | O, rocblas_pointer_mode_host => [A; x; y]
             | O, rocblas_pointer_mode_device => [alpha; A; x; beta; y]
             | _, _ => []
             end)
  /\ ((exists args, In (log_trace h args) logged)
      <-> N.land (layer_mode h) rocblas_layer_mode_log_trace <> 0%N)
  /\ ((exists args, In (log_bench h args) logged)
      <-> N.land (layer_mode h) rocblas_layer_mode_log_bench <> 0%N
          /\ pointer_mode h = rocblas_pointer_mode_host)
  /\ ((exists args, In (log_profile h args) logged)
      <-> N.land (layer_mode h) rocblas_layer_mode_log_profile <> 0%N).
Proof.
  intros He Hq logged; subst logged.
  destruct He; subst entry;
    unfold rocblas_chbmv_batched, rocblas_zhbmv_batched;
    rewrite ?(c_wrapper_fst exception_to_rocblas_status);
    unfold rocblas_hbmv_batched_impl;
    rewrite Hq; cbv zeta; cbn [fst]; rewrite !layer_has_lor;
    destruct (layer_has (layer_mode h) rocblas_layer_mode_log_trace) eqn:Et,
             (layer_has (layer_mode h) rocblas_layer_mode_log_bench) eqn:Eb,
             (layer_has (layer_mode h) rocblas_layer_mode_log_profile) eqn:Ep,
             (pointer_mode h) eqn:Em;
    rewrite ?layer_has_true, ?layer_has_false in *;
    cbn;
    (split; [repeat constructor|]);
    (split;
     [intros c Hc;
      repeat (destruct Hc as [<-|Hc];
              [split; [reflexivity|split; reflexivity]|]);
      destruct Hc|]);
    (split; [|split]);
    (split;
     [ intros [args Hin];
       first [ assumption
             | split; [assumption|reflexivity]
             | exfalso; intuition discriminate ]
     | intros Hb;
       first [ exfalso; solve [intuition congruence]
             | eexists; cbn; solve [auto] ] ]).
Qed.

End MoreHbmvFacts.

(** The theorems on the entry points at sample calls. *)
Lemma hbmv_null_pointer_witness :
  snd (Hbmv.rocblas_chbmv_batched not_queried 1 2 4 template_succeeds
         to_internal_error (Some quiet_handle) Hbmv.rocblas_fill_upper
         3 1 4096 0 2 8192 1 4096 12288 1 5)
  = Ok rocblas_status_invalid_pointer.
Proof.
  refine (hbmv_null_pointer not_queried 1 2 4 template_succeeds
            to_internal_error _ quiet_handle Hbmv.rocblas_fill_upper
            3 1 4096 0 2 8192 1 4096 12288 1 5
            (or_introl eq_refl) eq_refl _ _ _ _ _ _ _)%Z;
    try lia; left; reflexivity.
Defined.

Lemma hbmv_calls_the_kernel_witness :
  snd (Hbmv.rocblas_zhbmv_batched not_queried 1 2 4 template_succeeds
         to_internal_error (Some quiet_handle) Hbmv.rocblas_fill_lower
         3 1 4096 16 2 8192 1 4096 12288 1 5)
  = Ok rocblas_status_success.
Proof.
  refine (proj1 (hbmv_calls_the_kernel not_queried 1 2 4 template_succeeds
                   to_internal_error _ _ quiet_handle Hbmv.rocblas_fill_lower
                   3 1 4096 16 2 8192 1 4096 12288 1 5
                   (or_intror eq_refl)) eq_refl _ _ _ _ _ _ _ _ _ _ _)%Z;
    first [lia | discriminate].
Defined.

(** A call with invalid sizes and null pointers, all logging on and the
    scalars on the device: the trace and profile calls are made, and made
    with these sizes, before invalid-size is returned. *)
Lemma hbmv_logging_precedes_checks_witness :
  let call :=
    Hbmv.rocblas_chbmv_batched not_queried 1 2 4 template_succeeds
      to_internal_error (Some logging_device_handle) Hbmv.rocblas_fill_upper
      (-1) 0 0 0 0 0 0 0 0 0 (-1) in
  snd call = Ok rocblas_status_invalid_size
  /\ map Hbmv.log_rank (fst call) = [0; 2]%nat
  /\ Forall (fun c => Hbmv.sizes_logged c = [-1; 0; 0; 0; 0; -1]%Z) (fst call).
Proof.
  split; [reflexivity|]; split; [reflexivity|].
  apply Forall_forall; intros c Hc.
  exact (proj1 (proj2
           (proj1 (proj2 (hbmv_logging_precedes_checks not_queried 1 2 4
                            template_succeeds to_internal_error _
                            logging_device_handle Hbmv.rocblas_fill_upper
                            (-1) 0 0 0 0 0 0 0 0 0 (-1)
                            (or_introl eq_refl) eq_refl)%Z) c Hc))).
Defined.

(** ** The buffers of the hemv test *)

Section TestingHemvFacts.

Import TestingHemv.

Local Open Scope Z_scope.

(** Past the argument check of [testing_hemv], for 32-bit arguments with
    incx above the least [int]: the sizes computed in [size_t] do not wrap
    around, size_A = lda * N and size_x = N * |incx|; every element (i, j)
    of an N by N column-major matrix with leading dimension lda lies inside
    size_A, and every element i * |incx| of a vector of N elements inside
    size_x. *)
Theorem testing_hemv_buffers_suffice (N lda incx incy : Z) :
  in_int N -> in_int lda -> in_int incx -> - 2 ^ 31 < incx ->
  invalid_size N lda incx incy = false ->
  size_A N lda = lda * N
  /\ size_x N incx = N * Z.abs incx
  /\ (forall i j, 0 <= i < N -> 0 <= j < N -> 0 <= i + j * lda < size_A N lda)
  /\ (forall i, 0 <= i < N -> 0 <= i * Z.abs incx < size_x N incx).
Proof.
  unfold in_int, invalid_size; intros HN Hl Hi Hm Hv.
  rewrite !orb_false_iff in Hv.
  destruct Hv as [[[[H1 H2] H3] H4] _].
  apply Z.ltb_ge in H1, H2, H3. apply Z.eqb_neq in H4.
  assert (E64 : 2 ^ 64 = 18446744073709551616) by reflexivity.
  assert (E31 : 2 ^ 31 = 2147483648) by reflexivity.
  assert (E32 : 2 ^ 32 = 4294967296) by reflexivity.
  assert (HA : size_A N lda = lda * N).
  { unfold size_A, to_size_t.
    rewrite (Z.mod_small lda), (Z.mod_small N) by lia.
    apply Z.mod_small; nia. }
  assert (Habs : abs_inc incx = Z.abs incx).
  { unfold abs_inc, to_size_t, wrap_int.
    destruct (0 <=? incx) eqn:E.
    - apply Z.leb_le in E; rewrite Z.abs_eq by lia; apply Z.mod_small; lia.
    - apply Z.leb_gt in E; rewrite Z.abs_neq by lia.
      rewrite (Z.mod_small (- incx + 2 ^ 31)) by lia.
      replace (- incx + 2 ^ 31 - 2 ^ 31) with (- incx) by lia.
      apply Z.mod_small; lia. }
  assert (HX : size_x N incx = N * Z.abs incx).
  { unfold size_x; rewrite Habs; unfold to_size_t.
    rewrite (Z.mod_small N) by lia.
    apply Z.mod_small; nia. }
  split; [exact HA|]; split; [exact HX|]; split.
  - intros i j Hi' Hj; rewrite HA; nia.
  - intros i Hi'; rewrite HX; nia.
Qed.

End TestingHemvFacts.

Lemma testing_hemv_buffers_suffice_witness :
  TestingHemv.size_A 100 100 = 10000%Z /\ TestingHemv.size_x 100 (-2) = 200%Z.
Proof.
  assert (H : TestingHemv.in_int 100 /\ TestingHemv.in_int (-2))
    by (unfold TestingHemv.in_int; lia).
  destruct H as [H1 H2].
  destruct (testing_hemv_buffers_suffice 100 100 (-2) 1 H1 H1 H2
              ltac:(lia) eq_refl) as (HA & HX & _).
  split; [rewrite HA | rewrite HX]; reflexivity.
Defined.
